(** * Vineyard metadata coordination over etcd

    A shallow embedding of [src/server/services/etcd_meta_service.h] and
    [src/server/services/etcd_meta_service.cc]: the watch handler, the lock
    handle, the chunked commit, the snapshot read and the daemon-watch retry
    loop, together with the properties the design document states about
    them.

    The file has three parts: the embedding (definitions only), the
    lemmas and theorems about what the design document states, and
    further properties of the code. *)

From Stdlib Require Import ZArith Lia Bool Ascii String.
From stdpp Require Import base option list strings pretty gmap.
From Equations Require Import Equations.

Local Open Scope string_scope.

(** ** Machine integers

    Every revision in the service has the 32-bit C++ type [unsigned]; it is
    a [Z] here.  The one addition the code performs on it wraps, and so
    does the conversion of a wider integer to it. *)

Abbreviation unsigned := Z (only parsing).

Definition unsigned_modulus : Z := (2 ^ 32)%Z.

Definition unsigned_wrap (z : Z) : unsigned := (z mod unsigned_modulus)%Z.

(** [a + b] at type [unsigned]. *)
Definition unsigned_add (a b : unsigned) : unsigned := unsigned_wrap (a + b)%Z.

(** ** Strings

    [std::string] values are [string]s; the boost string algorithms the
    service calls are written out. *)

(** [boost::algorithm::starts_with(Input, Test)]. *)
Fixpoint starts_with (input test : string) {struct test} : bool :=
  match test with
  | EmptyString => true
  | String c test' =>
      match input with
      | EmptyString => false
      | String d input' => Ascii.eqb d c && starts_with input' test'
      end
  end.

(** [boost::algorithm::erase_head_copy(Input, N)]: the input without its
    first [N] characters, empty when it has no more than [N]. *)
Fixpoint erase_head_copy (input : string) (n : nat) {struct n} : string :=
  match n with
  | O => input
  | S n' =>
      match input with
      | EmptyString => EmptyString
      | String _ input' => erase_head_copy input' n'
      end
  end.

(** [std::string::empty]. *)
Definition string_empty (s : string) : bool :=
  match s with
  | EmptyString => true
  | String _ _ => false
  end.

(** ** Status *)

(** Modelled from the spec: [common/util/status.h] is not among the sources.
    The design document gives [Status] as a sum of OK, [EtcdError(code, msg)]
    and [Invalid(msg)], and says that the status built from a response is OK
    when the response is error-free. *)
Inductive Status : Type :=
| StatusOK
| StatusEtcdError (code : Z) (msg : string)
| StatusInvalid (msg : string).

(** Modelled from the spec: the factories [Status::OK], [Status::Invalid]
    and [Status::EtcdError] of the same missing header. *)
Definition Status_OK : Status := StatusOK.

Definition Status_Invalid (msg : string) : Status := StatusInvalid msg.

Definition Status_EtcdError (error_code : Z) (error_message : string) : Status :=
  if (error_code =? 0)%Z then StatusOK else StatusEtcdError error_code error_message.

(** ** Operation records *)

(** Modelled from the spec: [server/services/meta_service.h], which declares
    [IMetaService::op_t], is not among the sources.  The code reads the
    fields [op.op], [op.kv.key] and [op.kv.value] and builds records with
    [op_t::Put(key, value, rev)] and [op_t::Del(key, rev)]; the design
    document gives the variants [Put{key, value, rev}] and [Del{key, rev}]. *)
Inductive op_type_t : Type := kPut | kDel.

Record kv_t : Type := mk_kv { key : string; value : string; rev : unsigned }.

Record op_t : Type := mk_op { op : op_type_t; kv : kv_t }.

Definition op_t_Put (k v : string) (r : unsigned) : op_t :=
  {| op := kPut; kv := {| key := k; value := v; rev := r |} |}.

Definition op_t_Del (k : string) (r : unsigned) : op_t :=
  {| op := kDel; kv := {| key := k; value := ""; rev := r |} |}.

(** Modelled from the spec: the value-initialised [op_t] that
    [std::vector<op_t>(n)] is filled with.  Its strings are empty whatever
    the missing declaration says; the revision is zero and the tag the first
    enumerator. *)
Definition op_t_default : op_t :=
  {| op := kPut; kv := {| key := ""; value := ""; rev := 0%Z |} |}.

(** ** The backing-store client

    The etcd client library is external.  A response is the record of the
    accessors the service reads, an event that of [mvccpb::Event], and a
    transaction the list of operations set up on it. *)

Inductive EventType : Type := PUT | DELETE_ | UNRECOGNIZED.

(** [mvccpb::KeyValue]; [mod_revision] is a 64-bit integer there. *)
Record KeyValue : Type :=
  mk_keyvalue { kv_key : string; kv_value : string; mod_revision : Z }.

Record Event : Type := mk_event { type : EventType; event_kv : KeyValue }.

(** [etcd::Response]; [index] is [resp.index()] at the type [unsigned] at
    which the service passes it on. *)
Record Response : Type := mk_response {
  error_code : Z;
  error_message : string;
  index : unsigned;
  lock_key : string;
  keys : list string;
  values : list string;
  events : list Event
}.

Definition is_ok (resp : Response) : bool := (error_code resp =? 0)%Z.

(** [resp.key(i)] and [resp.value(i).as_string()]; the library keeps both
    vectors at the same length. *)
Definition resp_key (resp : Response) (i : nat) : string :=
  default "" (keys resp !! i).

Definition resp_value (resp : Response) (i : nat) : string :=
  default "" (values resp !! i).

Inductive TxnOp : Type :=
| TxnPut (k v : string)
| TxnDelete (k : string).

Abbreviation Transaction := (list TxnOp) (only parsing).

Definition setup_put (tx : Transaction) (k v : string) : Transaction :=
  tx ++ [TxnPut k v].

Definition setup_delete (tx : Transaction) (k : string) : Transaction :=
  tx ++ [TxnDelete k].

(** The primitives of [etcd::Client] the service calls, as transitions of
    a backing store of any type. *)
Class EtcdClient (Store : Type) : Type := {
  etcd_ls : string -> Store -> Response * Store;
  etcd_txn : Transaction -> Store -> Response * Store;
  etcd_lock : string -> Store -> Response * Store;
  etcd_unlock : string -> Store -> Response * Store;
  etcd_watch : string -> unsigned -> bool -> Store -> Response * Store
}.

Inductive Request : Type :=
| ReqLs (k : string)
| ReqTxn (tx : Transaction)
| ReqLock (name : string)
| ReqUnlock (k : string)
| ReqWatch (k : string) (from_index : unsigned) (recursive : bool).

(** How the caller consumes the response: [.get()] blocks for it, [.then]
    attaches a continuation.  A continuation runs here as soon as the call
    is made; what it does, not when, is what the properties below are
    about. *)
Inductive Completion : Type := Awaited | Continued.

Record Call : Type :=
  mk_call { call_request : Request; call_completion : Completion; call_response : Response }.

(** ** Callbacks, lock handles and the world

    A caller's callback is an opaque handle.  A closure is the record of
    its captured variables, its body a function of them. *)

Abbreviation callback_t := nat (only parsing).

(** The lambda [requestLock] stores in the handle captures [lock_key] and
    [traceback] (and two time stamps, used for logging only). *)
Record ReleaseClosure : Type :=
  mk_release_closure { captured_lock_key : string; captured_traceback : string }.

(** [class EtcdLock]; [lock_rev] is the revision held by the [ILock] base. *)
Record EtcdLock : Type := mk_lock {
  lock_rev : unsigned;
  released_ : bool;
  traceback_ : string;
  callback_ : ReleaseClosure
}.

Inductive Posted : Type :=
| PostLocked (callback : callback_t) (status : Status) (lock_ptr : EtcdLock)
| PostUpdated (callback : callback_t) (status : Status) (r : unsigned)
| PostOps (callback : callback_t) (status : Status) (ops : list op_t) (r : unsigned).

Inductive Severity : Type := INFO | ERROR.

(** The backing store, the calls made on the client so far, the handlers
    posted on the server's meta context, and the lines the lock handle
    logs (the other log lines of the service print durations or exception
    texts and are left out). *)
Record World (Store : Type) : Type := mk_world {
  store : Store;
  calls : list Call;
  meta_context : list Posted;
  diagnostics : list (Severity * string)
}.

Arguments mk_world {Store} _ _ _ _.
Arguments store {Store} _.
Arguments calls {Store} _.
Arguments meta_context {Store} _.
Arguments diagnostics {Store} _.

(** Stateful code runs in the state monad over the world. *)
Definition M (Store A : Type) : Type := World Store -> A * World Store.

Definition M_ret {Store A} (a : A) : M Store A := fun w => (a, w).

Definition M_bind {Store A B} (c : M Store A) (k : A -> M Store B) : M Store B :=
  fun w => let (a, w') := c w in k a w'.

Notation "x <- c ;; k" := (M_bind c (fun x => k))
  (at level 100, c at next level, right associativity).
Notation "c ;;; k" := (M_bind c (fun _ => k))
  (at level 100, right associativity).

Definition post {Store} (p : Posted) : M Store unit :=
  fun w => (tt, mk_world (store w) (calls w) (meta_context w ++ [p]) (diagnostics w)).

Definition LOG {Store} (s : Severity) (msg : string) : M Store unit :=
  fun w => (tt, mk_world (store w) (calls w) (meta_context w) (diagnostics w ++ [(s, msg)])).

(** One call on the client: the store answers and moves on, the call is
    recorded. *)
Definition call {Store} (req : Request) (how : Completion)
    (run : Store -> Response * Store) : M Store Response :=
  fun w =>
    let (resp, s') := run (store w) in
    (resp, mk_world s' (calls w ++ [mk_call req how resp]) (meta_context w) (diagnostics w)).

(** ** The watch handler *)

(** [class EtcdWatchHandler]; [ctx_] is the meta context of the world. *)
Record EtcdWatchHandler : Type := mk_handler {
  handler_callback_ : callback_t;
  handler_prefix_ : string;
  filter_prefix_ : string
}.

(** One turn of the loop over [resp.events()]; a [continue] leaves [ops]
    as it is.  [op_t::Put] and [op_t::Del] take the revision at type
    [unsigned]: the 64-bit [mod_revision] is narrowed to 32 bits where it
    is passed. *)
Definition watch_event (h : EtcdWatchHandler) (ops : list op_t) (event : Event) : list op_t :=
  let k := kv_key (event_kv event) in
  if negb (string_empty (filter_prefix_ h)) && starts_with k (filter_prefix_ h) then ops
  else if negb (starts_with k (handler_prefix_ h ++ "/")) then ops
  else
    let op_key := erase_head_copy k (String.length (handler_prefix_ h)) in
    match type event with
    | PUT =>
        ops ++ [op_t_Put op_key (kv_value (event_kv event))
                  (unsigned_wrap (mod_revision (event_kv event)))]
    | DELETE_ =>
        ops ++ [op_t_Del op_key (unsigned_wrap (mod_revision (event_kv event)))]
    | UNRECOGNIZED => ops
    end.

Definition watch_ops (h : EtcdWatchHandler) (resp : Response) : list op_t :=
  fold_left (watch_event h) (events resp) [].

(** [EtcdWatchHandler::operator()(etcd::Response const&)]. *)
Definition EtcdWatchHandler_call {Store} (h : EtcdWatchHandler) (resp : Response) : M Store unit :=
  let ops := watch_ops h resp in
  let status := Status_EtcdError (error_code resp) (error_message resp) in
  post (PostOps (handler_callback_ h) status ops (index resp)).

(** ** The service object *)

Record Watcher : Type := mk_watcher {
  watch_key : string;
  watch_from_index : unsigned;
  watch_handler : EtcdWatchHandler;
  watch_recursive : bool;
  (** the lambda given to [Wait] captures [prefix] and [callback] *)
  wait_closure : option (string * callback_t);
  (** [Cancel] has been called *)
  watch_cancelled : bool;
  (** the watch has ended and the [Wait] lambda has run *)
  watch_done : bool
}.

Record steady_timer : Type := mk_timer {
  expires_after_seconds : Z;
  (** the lambda given to [async_wait] captures [prefix], [since_rev] and
      [callback]; [None] once it has run *)
  timer_closure : option (string * unsigned * callback_t)
}.

Inductive Signal : Type := SIGTERM.

Record child : Type := mk_child {
  child_terminated : bool;
  child_signals : list Signal;
  child_waited : bool
}.

(** [class EtcdMetaService], with the members of [IMetaService] it reads
    ([rev_] and [meta_sync_lock_]). *)
Record EtcdMetaService : Type := mk_service {
  prefix_ : string;
  meta_sync_lock_ : string;
  rev_ : unsigned;
  watcher_ : option Watcher;
  backoff_timer_ : option steady_timer;
  etcd_proc_ : option child
}.

Definition set_watcher_ (this : EtcdMetaService) (w : option Watcher) : EtcdMetaService :=
  mk_service (prefix_ this) (meta_sync_lock_ this) (rev_ this) w
    (backoff_timer_ this) (etcd_proc_ this).

Definition set_backoff_timer_ (this : EtcdMetaService) (t : option steady_timer)
    : EtcdMetaService :=
  mk_service (prefix_ this) (meta_sync_lock_ this) (rev_ this) (watcher_ this)
    t (etcd_proc_ this).

Definition set_etcd_proc_ (this : EtcdMetaService) (p : option child) : EtcdMetaService :=
  mk_service (prefix_ this) (meta_sync_lock_ this) (rev_ this) (watcher_ this)
    (backoff_timer_ this) p.

Definition set_rev_ (this : EtcdMetaService) (r : unsigned) : EtcdMetaService :=
  mk_service (prefix_ this) (meta_sync_lock_ this) r (watcher_ this)
    (backoff_timer_ this) (etcd_proc_ this).

Section Service.

Context {Store : Type} {client : EtcdClient Store}.

(** ** The lock handle *)

(** The body of the lambda [requestLock] stores in the handle: unlock at
    the backing store, blocking for the answer. *)
Definition release_closure_call (c : ReleaseClosure) (status : Status) (r : unsigned)
    : M Store (Status * unsigned) :=
  unlock_resp <- call (ReqUnlock (captured_lock_key c)) Awaited
                   (etcd_unlock (captured_lock_key c)) ;;
  let r := if is_ok unlock_resp then index unlock_resp else r in
  let unlock_status :=
    Status_EtcdError (error_code unlock_resp) (error_message unlock_resp) in
  M_ret (unlock_status, r).

(** The constructor [EtcdLock(traceback, callback, rev)]. *)
Definition EtcdLock_new (traceback : string) (callback : ReleaseClosure) (r : unsigned)
    : EtcdLock :=
  {| lock_rev := r; released_ := false; traceback_ := traceback; callback_ := callback |}.

Definition set_released_ (l : EtcdLock) (b : bool) : EtcdLock :=
  {| lock_rev := lock_rev l; released_ := b; traceback_ := traceback_ l;
     callback_ := callback_ l |}.

(** [EtcdLock::Release(unsigned& rev)] in two parts: the atomic
    [released_.exchange(true)], and the branch taken on the value it
    returned.  The result is the status, the out-parameter and the handle
    afterwards. *)
Definition Release_after_exchange (l : EtcdLock) (was_released : bool) (r : unsigned)
    : M Store (Status * unsigned) :=
  if negb was_released then
    LOG INFO "execute unlock ..." ;;;
    release_closure_call (callback_ l) Status_OK r
  else
    LOG ERROR ("double unlock, traceback = " ++ traceback_ l) ;;;
    M_ret (Status_Invalid "double unlock", r).

Definition Release (l : EtcdLock) (r : unsigned) : M Store (Status * unsigned * EtcdLock) :=
  let was_released := released_ l in
  let l := set_released_ l true in
  res <- Release_after_exchange l was_released r ;;
  M_ret (fst res, snd res, l).

(** [EtcdLock::~EtcdLock()]. *)
Definition EtcdLock_destroy (l : EtcdLock) : M Store EtcdLock :=
  if negb (released_ l) then
    LOG ERROR ("failed to unlock: " ++ traceback_ l) ;;;
    let unlock_rev := 0%Z in
    res <- Release l unlock_rev ;;
    M_ret (snd res)
  else M_ret l.

(** What the owners of a handle do with it, one after the other. *)
Inductive LockUse : Type :=
| UseRelease (r : unsigned)
| UseDestroy.

Definition lock_use (u : LockUse) (l : EtcdLock) : M Store EtcdLock :=
  match u with
  | UseRelease r => res <- Release l r ;; M_ret (snd res)
  | UseDestroy => EtcdLock_destroy l
  end.

Fixpoint lock_uses (us : list LockUse) (l : EtcdLock) : M Store EtcdLock :=
  match us with
  | [] => M_ret l
  | u :: us' => l' <- lock_use u l ;; lock_uses us' l'
  end.

(** The same at the grain of the atomic flag, for threads that call
    [Release] while another destroys the handle.  A step is one access to
    [released_] with the thread-local code up to the next access, or the
    call of the closure by the thread whose exchange returned [false]. *)
Inductive LockStep : Type :=
(** a caller of [Release] performs the exchange *)
| StepExchange (r : unsigned)
(** the caller whose exchange returned [false] calls the closure *)
| StepUnlock
(** the destructor loads the flag *)
| StepDtorLoad
(** the destructor, having loaded [false], enters [Release] and performs
    the exchange *)
| StepDtorExchange.

Record LockRun : Type := mk_lock_run {
  run_handle : EtcdLock;
  (** the destructor has loaded [false] and has not yet entered [Release] *)
  run_dtor_pending : bool;
  (** the out-parameter of the caller whose exchange returned [false] and
      who has not yet called the closure *)
  run_winner : option unsigned
}.

Definition lock_exchange (r : unsigned) (dtor_pending : bool) (st : LockRun) : M Store LockRun :=
  let was_released := released_ (run_handle st) in
  let l := set_released_ (run_handle st) true in
  if was_released then
    Release_after_exchange l true r ;;;
    M_ret (mk_lock_run l dtor_pending (run_winner st))
  else M_ret (mk_lock_run l dtor_pending (Some r)).

Definition lock_step (s : LockStep) (st : LockRun) : M Store LockRun :=
  match s with
  | StepExchange r => lock_exchange r (run_dtor_pending st) st
  | StepUnlock =>
      match run_winner st with
      | Some r =>
          Release_after_exchange (run_handle st) false r ;;;
          M_ret (mk_lock_run (run_handle st) (run_dtor_pending st) None)
      | None => M_ret st
      end
  | StepDtorLoad =>
      if negb (released_ (run_handle st)) then
        LOG ERROR ("failed to unlock: " ++ traceback_ (run_handle st)) ;;;
        M_ret (mk_lock_run (run_handle st) true (run_winner st))
      else M_ret st
  | StepDtorExchange =>
      if run_dtor_pending st then lock_exchange 0%Z false st else M_ret st
  end.

Fixpoint lock_steps (ss : list LockStep) (st : LockRun) : M Store LockRun :=
  match ss with
  | [] => M_ret st
  | s :: ss' => st' <- lock_step s st ;; lock_steps ss' st'
  end.



(** ** [EtcdMetaService::requestLock]

    [traceback] is the text [backtrace_info::backtrace] writes at the call
    site. *)
Definition requestLock (this : EtcdMetaService) (traceback : string) (lock_name : string)
    (callback_after_locked : callback_t) : M Store unit :=
  resp <- call (ReqLock (prefix_ this ++ lock_name)) Continued
            (etcd_lock (prefix_ this ++ lock_name)) ;;
  let lock_ptr :=
    EtcdLock_new traceback (mk_release_closure (lock_key resp) traceback) (index resp) in
  let status := Status_EtcdError (error_code resp) (error_message resp) in
  post (PostLocked callback_after_locked status lock_ptr).

(** The handle [requestLock] posts for a given answer of the store. *)
Definition requested_handle (traceback : string) (resp : Response) : EtcdLock :=
  EtcdLock_new traceback (mk_release_closure (lock_key resp) traceback) (index resp).

(** ** [EtcdMetaService::commitUpdates] *)

Definition setup_op (this : EtcdMetaService) (tx : Transaction) (o : op_t) : Transaction :=
  match op o with
  | kPut => setup_put tx (prefix_ this ++ key (kv o)) (value (kv o))
  | kDel => setup_delete tx (prefix_ this ++ key (kv o))
  end.

(** [for (size_t idx = first; idx < last; ++idx)] over [changes[idx]].
    Both loops of [commitUpdates] stay within the vector, so the lookup
    never misses. *)
Definition setup_range (this : EtcdMetaService) (changes : list op_t) (first last : nat)
    : Transaction :=
  fold_left
    (fun tx idx =>
       match changes !! idx with
       | Some o => setup_op this tx o
       | None => tx
       end)
    (seq first (last - first)) [].

(** How the [while] loop is left: by the [return] in its body, or by its
    condition with the offset reached.  Offsets are [size_t] in the source;
    a vector is far too short for [offset + 127] to wrap, so they are
    natural numbers here. *)
Inductive LoopExit : Type :=
| Returned
| Fallthrough (offset : nat).

Equations? commit_loop (this : EtcdMetaService) (changes : list op_t)
    (callback_after_updated : callback_t) (offset : nat) (w : World Store)
    : LoopExit * World Store by wf (length changes - offset) lt :=
commit_loop this changes callback_after_updated offset w
    with decide (offset + 127 < length changes) := {
  | left _ =>
      let tx := setup_range this changes offset (offset + 127) in
      let (resp, w1) := call (ReqTxn tx) Awaited (etcd_txn tx) w in
      if is_ok resp then
        commit_loop this changes callback_after_updated (offset + 127) w1
      else
        let status := Status_EtcdError (error_code resp) (error_message resp) in
        let (_, w2) := post (PostUpdated callback_after_updated status (index resp)) w1 in
        (Returned, w2)
  | right _ => (Fallthrough offset, w) }.
Proof. lia. Qed.

Definition commitUpdates (this : EtcdMetaService) (changes : list op_t)
    (callback_after_updated : callback_t) : M Store unit :=
  fun w =>
    match commit_loop this changes callback_after_updated 0 w with
    | (Returned, w') => (tt, w')
    | (Fallthrough offset, w') =>
        let tx := setup_range this changes offset (length changes) in
        (resp <- call (ReqTxn tx) Continued (etcd_txn tx) ;;
         let status := Status_EtcdError (error_code resp) (error_message resp) in
         post (PostUpdated callback_after_updated status (index resp))) w'
    end.

(** ** [EtcdMetaService::requestAll] *)

(** One turn of the loop over the indices of [resp.keys()]. *)
Definition requestAll_step (this : EtcdMetaService) (resp : Response)
    (ops : list op_t) (i : nat) : list op_t :=
  if string_empty (resp_key resp i) then ops
  else if negb (starts_with (resp_key resp i) (prefix_ this ++ "/")) then ops
  else
    let op_key := erase_head_copy (resp_key resp i) (String.length (prefix_ this)) in
    ops ++ [op_t_Put op_key (resp_value resp i) (index resp)].

(** [ops] starts as [std::vector<op_t>(resp.keys().size())], that many
    value-initialised records, and the loop appends to it. *)
Definition requestAll_ops (this : EtcdMetaService) (resp : Response) : list op_t :=
  fold_left (requestAll_step this resp) (seq 0 (length (keys resp)))
    (replicate (length (keys resp)) op_t_default).

Definition requestAll (this : EtcdMetaService) (prefix : string) (base_rev : unsigned)
    (callback : callback_t) : M Store unit :=
  resp <- call (ReqLs (prefix_ this ++ prefix)) Continued
            (etcd_ls (prefix_ this ++ prefix)) ;;
  let ops := requestAll_ops this resp in
  let status := Status_EtcdError (error_code resp) (error_message resp) in
  post (PostOps callback status ops (index resp)).

(** ** [EtcdMetaService::requestUpdates] *)

Definition requestUpdates (this : EtcdMetaService) (prefix : string) (since_rev : unsigned)
    (callback : callback_t) : M Store unit :=
  resp <- call (ReqWatch (prefix_ this ++ prefix) (unsigned_add since_rev 1) true) Continued
            (etcd_watch (prefix_ this ++ prefix) (unsigned_add since_rev 1) true) ;;
  EtcdWatchHandler_call
    (mk_handler callback (prefix_ this) (prefix_ this ++ meta_sync_lock_ this)) resp.

End Service.

(** ** The daemon watch *)

Definition BACKOFF_RETRY_TIME : Z := 10%Z.

(** [EtcdMetaService::retryDaeminWatch]: a new timer replaces the one
    held, and the lambda waits on it. *)
Definition retryDaeminWatch (this : EtcdMetaService) (prefix : string) (since_rev : unsigned)
    (callback : callback_t) : EtcdMetaService :=
  set_backoff_timer_ this
    (Some {| expires_after_seconds := BACKOFF_RETRY_TIME;
             timer_closure := Some (prefix, since_rev, callback) |}).

(** [EtcdMetaService::startDaemonWatch].  Whether the constructor of
    [etcd::Watcher] throws [std::runtime_error] is decided by the client
    library: [ctor_throws]. *)
Definition startDaemonWatch (ctor_throws : bool) (this : EtcdMetaService) (prefix : string)
    (since_rev : unsigned) (callback : callback_t) : EtcdMetaService :=
  if ctor_throws then retryDaeminWatch this prefix since_rev callback
  else
    set_watcher_ this
      (Some {| watch_key := prefix_ this ++ prefix;
               watch_from_index := unsigned_add since_rev 1;
               watch_handler :=
                 mk_handler callback (prefix_ this) (prefix_ this ++ meta_sync_lock_ this);
               watch_recursive := true;
               wait_closure := Some (prefix, callback);
               watch_cancelled := false;
               watch_done := false |}).

(** The lambda given to [Watcher::Wait] in [startDaemonWatch]. *)
Definition on_watch_finished (this : EtcdMetaService) (prefix : string) (callback : callback_t)
    (cancalled : bool) : EtcdMetaService :=
  if cancalled then this
  else retryDaeminWatch this prefix (rev_ this) callback.

(** The lambda given to [async_wait] in [retryDaeminWatch]; an [error]
    is logged and the retry goes ahead all the same. *)
Definition on_backoff_timer (ctor_throws : bool) (this : EtcdMetaService) (prefix : string)
    (since_rev : unsigned) (callback : callback_t) (error : bool) : EtcdMetaService :=
  startDaemonWatch ctor_throws this prefix since_rev callback.

(** [Watcher::Cancel], of the client library. *)
Definition Watcher_Cancel (w : Watcher) : Watcher :=
  {| watch_key := watch_key w; watch_from_index := watch_from_index w;
     watch_handler := watch_handler w; watch_recursive := watch_recursive w;
     wait_closure := wait_closure w; watch_cancelled := true;
     watch_done := watch_done w |}.

Definition Watcher_finish (w : Watcher) : Watcher :=
  {| watch_key := watch_key w; watch_from_index := watch_from_index w;
     watch_handler := watch_handler w; watch_recursive := watch_recursive w;
     wait_closure := None; watch_cancelled := watch_cancelled w;
     watch_done := true |}.

(** [EtcdMetaService::Stop].  [cancel_throws]: [Cancel] raised, which
    [catch (...)] swallows. *)
Definition Stop (cancel_throws : bool) (this : EtcdMetaService) : EtcdMetaService :=
  let this :=
    match watcher_ this with
    | Some w =>
        if cancel_throws then this else set_watcher_ this (Some (Watcher_Cancel w))
    | None => this
    end in
  match etcd_proc_ this with
  | Some p =>
      set_etcd_proc_ this
        (Some {| child_terminated := true;
                 child_signals := child_signals p ++ [SIGTERM];
                 child_waited := true |})
  | None => this
  end.

(** What reaches the service from outside while the daemon watch runs. *)
Inductive DaemonInput : Type :=
(** the watcher the service holds calls its handler with a batch *)
| InBatch (resp : Response)
(** the watch ends; the library tells the [Wait] lambda whether [Cancel]
    had been called *)
| InWatchEnds
(** the backoff timer completes *)
| InTimer (error : bool) (ctor_throws : bool)
(** the server calls [Stop] *)
| InStop (cancel_throws : bool)
(** the server moves [rev_] on; it does so in the callback, which runs
    on the meta context some time after the handler has posted it *)
| InRevision (r : unsigned).

Definition daemon_step {Store} (i : DaemonInput) (st : EtcdMetaService * World Store)
    : EtcdMetaService * World Store :=
  let (this, w) := st in
  match i with
  | InBatch resp =>
      match watcher_ this with
      | Some wt => (this, snd (EtcdWatchHandler_call (watch_handler wt) resp w))
      | None => st
      end
  | InWatchEnds =>
      match watcher_ this with
      | Some wt =>
          match wait_closure wt with
          | Some (prefix, callback) =>
              let this := set_watcher_ this (Some (Watcher_finish wt)) in
              (on_watch_finished this prefix callback (watch_cancelled wt), w)
          | None => st
          end
      | None => st
      end
  | InTimer error ctor_throws =>
      match backoff_timer_ this with
      | Some t =>
          match timer_closure t with
          | Some (prefix, since_rev, callback) =>
              let this :=
                set_backoff_timer_ this
                  (Some {| expires_after_seconds := expires_after_seconds t;
                           timer_closure := None |}) in
              (on_backoff_timer ctor_throws this prefix since_rev callback error, w)
          | None => st
          end
      | None => st
      end
  | InStop cancel_throws => (Stop cancel_throws this, w)
  | InRevision r => (set_rev_ this r, w)
  end.

Definition daemon_run {Store} (inputs : list DaemonInput)
    (st : EtcdMetaService * World Store) : EtcdMetaService * World Store :=
  fold_left (fun st i => daemon_step i st) inputs st.

(** A watch is delivering batches. *)
Definition subscribed (this : EtcdMetaService) : bool :=
  match watcher_ this with
  | Some wt => negb (watch_cancelled wt) && negb (watch_done wt)
  | None => false
  end.

(** A backoff timer is waiting to fire. *)
Definition timer_pending (this : EtcdMetaService) : bool :=
  match backoff_timer_ this with
  | Some t => bool_decide (is_Some (timer_closure t))
  | None => false
  end.

(** ** An in-memory backing store

    A test double for the client, used to run the service on concrete
    inputs: a key-value map with a revision counter, the history of its
    events, and a script of injected faults (the error code for each coming
    request, 0 to let it through). *)

Record MemStore : Type := mk_mem {
  mem_kvs : gmap string string;
  mem_revision : Z;
  mem_history : list Event;
  mem_held : list string;
  mem_faults : list Z
}.

Definition mem_empty : MemStore := mk_mem ∅ 0%Z [] [] [].

Definition mem_with_faults (faults : list Z) : MemStore := mk_mem ∅ 0%Z [] [] faults.

Definition mem_next_fault (s : MemStore) : Z * MemStore :=
  match mem_faults s with
  | [] => (0%Z, s)
  | c :: rest => (c, mk_mem (mem_kvs s) (mem_revision s) (mem_history s) (mem_held s) rest)
  end.

Definition mem_response (code : Z) (msg : string) (r : Z) : Response :=
  mk_response code msg r "" [] [] [].

Definition mem_apply_op (r : Z) (s : MemStore) (o : TxnOp) : MemStore :=
  match o with
  | TxnPut k v =>
      mk_mem (<[k:=v]> (mem_kvs s)) r
        (mem_history s ++ [mk_event PUT (mk_keyvalue k v r)]) (mem_held s) (mem_faults s)
  | TxnDelete k =>
      mk_mem (delete k (mem_kvs s)) r
        (mem_history s ++ [mk_event DELETE_ (mk_keyvalue k "" r)]) (mem_held s) (mem_faults s)
  end.

Definition mem_guarded (s : MemStore) (run : MemStore -> Response * MemStore)
    : Response * MemStore :=
  let (code, s') := mem_next_fault s in
  if (code =? 0)%Z then run s'
  else (mem_response code "injected fault" (mem_revision s'), s').

Definition mem_txn (tx : Transaction) (s : MemStore) : Response * MemStore :=
  mem_guarded s (fun s =>
    let r := (mem_revision s + 1)%Z in
    (mem_response 0%Z "" r, fold_left (mem_apply_op r) tx s)).

Definition mem_ls (k : string) (s : MemStore) : Response * MemStore :=
  mem_guarded s (fun s =>
    let found := filter (fun kv => starts_with (fst kv) k = true) (map_to_list (mem_kvs s)) in
    (mk_response 0%Z "" (mem_revision s) "" (map fst found) (map snd found) [], s)).

Definition mem_lock (name : string) (s : MemStore) : Response * MemStore :=
  mem_guarded s (fun s =>
    (mk_response 0%Z "" (mem_revision s) name [] [] [],
     mk_mem (mem_kvs s) (mem_revision s) (mem_history s) (name :: mem_held s) (mem_faults s))).

Definition mem_unlock (k : string) (s : MemStore) : Response * MemStore :=
  mem_guarded s (fun s =>
    (mem_response 0%Z "" (mem_revision s),
     mk_mem (mem_kvs s) (mem_revision s) (mem_history s)
       (filter (fun h => h ≠ k) (mem_held s)) (mem_faults s))).

Definition mem_watch (k : string) (from_index : Z) (recursive : bool) (s : MemStore)
    : Response * MemStore :=
  mem_guarded s (fun s =>
    let seen :=
      filter (fun e => starts_with (kv_key (event_kv e)) k = true
                       ∧ (from_index <= mod_revision (event_kv e))%Z)
        (mem_history s) in
    (mk_response 0%Z "" (mem_revision s) "" [] [] seen, s)).

#[export] Instance mem_client : EtcdClient MemStore := {
  etcd_ls := mem_ls;
  etcd_txn := mem_txn;
  etcd_lock := mem_lock;
  etcd_unlock := mem_unlock;
  etcd_watch := mem_watch
}.

Definition mem_world (s : MemStore) : World MemStore := mk_world s [] [] [].

Definition vineyard : EtcdMetaService :=
  mk_service "vineyard" "/meta_sync_lock" 0%Z None None None.

(** [n] puts of distinct keys ["/k1" .. "/kn"]. *)
Definition numbered_puts (n : nat) : list op_t :=
  map (fun i => op_t_Put ("/k" ++ pretty i) "v" 0%Z) (seq 1 n).

(** ** What the design document says

    The definitions below follow the words of the design document, not the
    code; the theorems compare the two. *)

(** [strip_prefix p s] is the rest of [s] after [p], when [s] begins
    with [p]. *)
Fixpoint strip_prefix (p s : string) : option string :=
  match p with
  | EmptyString => Some s
  | String c p' =>
      match s with
      | EmptyString => None
      | String d s' => if Ascii.eqb c d then strip_prefix p' s' else None
      end
  end.

Definition begins_with (s p : string) : bool := bool_decide (is_Some (strip_prefix p s)).

(** The record of one watch event, as the design document states it: none for
    a key under the sync-lock prefix or outside [prefix + "/"], otherwise a
    [Put] or a [Del] of the key relative to the namespace prefix. *)
Definition relative_record (prefix : string) (e : Event) : option op_t :=
  match strip_prefix (prefix ++ "/") (kv_key (event_kv e)) with
  | None => None
  | Some rest =>
      match type e with
      | PUT =>
          Some (op_t_Put ("/" ++ rest) (kv_value (event_kv e)) (mod_revision (event_kv e)))
      | DELETE_ => Some (op_t_Del ("/" ++ rest) (mod_revision (event_kv e)))
      | UNRECOGNIZED => None
      end
  end.

Definition stated_event_record (prefix sync_lock_prefix : string) (e : Event) : option op_t :=
  if begins_with (kv_key (event_kv e)) sync_lock_prefix then None
  else relative_record prefix e.

Definition stated_watch_ops (prefix sync_lock_prefix : string) (batch : list Event)
    : list op_t :=
  omap (stated_event_record prefix sync_lock_prefix) batch.

(** A record whose revision is reduced to the 32 bits of its field. *)
Definition narrow_rev (o : op_t) : op_t :=
  {| op := op o;
     kv := {| key := key (kv o); value := value (kv o);
              rev := unsigned_wrap (rev (kv o)) |} |}.

(** The same with the sync-lock filter applying only when the sync-lock
    prefix is not empty, and the revision of the record narrowed. *)
Definition guarded_event_record (prefix sync_lock_prefix : string) (e : Event)
    : option op_t :=
  if negb (string_empty sync_lock_prefix) && begins_with (kv_key (event_kv e)) sync_lock_prefix
  then None
  else narrow_rev <$> relative_record prefix e.

Definition guarded_watch_ops (prefix sync_lock_prefix : string) (batch : list Event)
    : list op_t :=
  omap (guarded_event_record prefix sync_lock_prefix) batch.

(** The records of a snapshot, as the design document states them: one [Put] at
    the snapshot revision for each returned key under [prefix + "/"]. *)
Definition stated_snapshot_record (prefix : string) (snapshot_rev : unsigned)
    (entry : string * string) : option op_t :=
  match strip_prefix (prefix ++ "/") (fst entry) with
  | None => None
  | Some rest => Some (op_t_Put ("/" ++ rest) (snd entry) snapshot_rev)
  end.

Definition stated_snapshot_ops (prefix : string) (resp : Response) : list op_t :=
  omap (stated_snapshot_record prefix (index resp)) (zip (keys resp) (values resp)).

(** The backing-store operation a change stands for. *)
Definition txn_op_of (prefix : string) (o : op_t) : TxnOp :=
  match op o with
  | kPut => TxnPut (prefix ++ key (kv o)) (value (kv o))
  | kDel => TxnDelete (prefix ++ key (kv o))
  end.

Definition div_ceil (n d : nat) : nat := (n + d - 1) / d.

(** The calls made between two worlds. *)
Definition new_calls {Store} (before after : World Store) : list Call :=
  drop (length (calls before)) (calls after).

Definition new_posts {Store} (before after : World Store) : list Posted :=
  drop (length (meta_context before)) (meta_context after).

Definition run_request {Store} {client : EtcdClient Store} (req : Request) (s : Store)
    : Response * Store :=
  match req with
  | ReqLs k => etcd_ls k s
  | ReqTxn tx => etcd_txn tx s
  | ReqLock name => etcd_lock name s
  | ReqUnlock k => etcd_unlock k s
  | ReqWatch k from_index recursive => etcd_watch k from_index recursive s
  end.

(** [served s cs s']: the store went from [s] to [s'] by answering the
    calls [cs] in order, and by nothing else. *)
Inductive served {Store} {client : EtcdClient Store} : Store -> list Call -> Store -> Prop :=
| served_nil s : served s [] s
| served_cons s c cs s' :
    call_response c = fst (run_request (call_request c) s) ->
    served (snd (run_request (call_request c) s)) cs s' ->
    served s (c :: cs) s'.

Definition transaction_of (c : Call) : Transaction :=
  match call_request c with
  | ReqTxn tx => tx
  | _ => []
  end.

Definition is_transaction (c : Call) : bool :=
  match call_request c with
  | ReqTxn _ => true
  | _ => false
  end.


(** ** Vocabulary of the proofs *)

Definition status_of (resp : Response) : Status :=
  Status_EtcdError (error_code resp) (error_message resp).

Definition succeeded (c : Call) : Prop := is_ok (call_response c) = true.

(** The [i]-th run of 127 elements of a list. *)
Definition chunk {A} (l : list A) (i : nat) : list A := take 127 (drop (127 * i) l).



Section Vocabulary.

Context {Store : Type} {client : EtcdClient Store}.

(** The call the release closure of [l] makes on the store [s]. *)
Definition unlock_call (l : EtcdLock) (s : Store) : Call :=
  mk_call (ReqUnlock (captured_lock_key (callback_ l))) Awaited
    (fst (etcd_unlock (captured_lock_key (callback_ l)) s)).

(** The design document's batching protocol for the chunks before the last:
    each is submitted and awaited in order; at the first failure the rest
    is abandoned and the callback posted with the failure status and that
    chunk's revision. *)
Fixpoint submit_awaited (callback : callback_t) (txs : list (list TxnOp)) (w : World Store)
    : bool * World Store :=
  match txs with
  | [] => (true, w)
  | tx :: txs' =>
      let (resp, w1) := call (ReqTxn tx) Awaited (etcd_txn tx) w in
      if is_ok resp then submit_awaited callback txs' w1
      else (false, snd (post (PostUpdated callback (status_of resp) (index resp)) w1))
  end.

(** And for the last chunk: submitted with a continuation that posts the
    callback. *)
Definition submit_continued (callback : callback_t) (tx : list TxnOp) : M Store unit :=
  resp <- call (ReqTxn tx) Continued (etcd_txn tx) ;;
  post (PostUpdated callback (status_of resp) (index resp)).

End Vocabulary.

(** ** Fixtures *)

(** A store holding the single key ["vineyard/a"]. *)
Definition snapshot_store : MemStore :=
  snd (mem_txn [TxnPut "vineyard/a" "1"] mem_empty).

(** The second chunk of 300 numbered puts, answered with an injected fault. *)
Definition failed_chunk : Call :=
  mk_call
    (ReqTxn (map (txn_op_of "vineyard") (take 127 (drop 127 (numbered_puts 300)))))
    Awaited (mem_response 5%Z "injected fault" 1%Z).

(** The service after [startDaemonWatch] whose watcher could not be
    created: backing off. *)
Definition backing_off_service : EtcdMetaService := startDaemonWatch true vineyard "" 5%Z 9.

(** The service after a [startDaemonWatch] that went through: watching. *)
Definition watching_service : EtcdMetaService := startDaemonWatch false vineyard "" 5%Z 9.


Definition late_batch : Response :=
  mk_response 0%Z "" 6%Z "" [] [] [mk_event PUT (mk_keyvalue "vineyard/b" "2" 6%Z)].


(** A batch whose event has a revision beyond 32 bits, [2^32 + 5]. *)
Definition wide_batch : Response :=
  mk_response 0%Z "" 5%Z "" [] []
    [mk_event PUT (mk_keyvalue "vineyard/a" "1" 4294967301%Z)].

(** ** [backtrace_info]

    [common/backtrace/backtrace.hpp] writes to a [std::ostream]; what it
    writes is a [string] here.  [backtrace] puts the stream in [std::hex]
    and [std::uppercase] before its loop, so every number below is written
    in upper-case hexadecimal; [unw_word_t] is a 64-bit word. *)









(** [abi::__cxa_demangle(symbol, nullptr, nullptr, &status)], of the C++
    runtime: the buffer it returns, if any, and the status it sets. *)
Abbreviation Demangler := (string -> option string * Z) (only parsing).









(** ** More vocabulary *)

(** The handler the service builds in [requestUpdates] and
    [startDaemonWatch]. *)
Definition service_handler (this : EtcdMetaService) (callback : callback_t)
    : EtcdWatchHandler :=
  mk_handler callback (prefix_ this) (prefix_ this ++ meta_sync_lock_ this).

(** The event the backing store reports to watchers for an operation it
    applied at revision [r], a 64-bit integer. *)
Definition reported_event (o : TxnOp) (r : Z) : Event :=
  match o with
  | TxnPut k v => mk_event PUT (mk_keyvalue k v r)
  | TxnDelete k => mk_event DELETE_ (mk_keyvalue k "" r)
  end.

(** The record of a change as a watcher is to see it at revision [r]. *)
Definition observed (o : op_t) (r : unsigned) : op_t :=
  match op o with
  | kPut => op_t_Put (key (kv o)) (value (kv o)) r
  | kDel => op_t_Del (key (kv o)) r
  end.

(** A revision that fits the 32 bits of [unsigned]. *)
Definition fits_unsigned (z : Z) : Prop := (0 <= z < unsigned_modulus)%Z.

(** The records handed to the callbacks posted so far, and their
    revisions: what has been delivered. *)
Definition records_of (p : Posted) : list op_t :=
  match p with
  | PostOps _ _ ops _ => ops
  | _ => []
  end.

Definition delivered_revisions {Store} (w : World Store) : list unsigned :=
  map (fun o => rev (kv o)) (concat (map records_of (meta_context w))).


(** Modelled from the spec: the client library is external.  The design
    document has a watch from [start_rev] deliver the events whose
    [mod_revision] is at least [start_rev]. *)
Definition delivered_from (start_rev : unsigned) (resp : Response) : Prop :=
  Forall (fun e => (start_rev <= mod_revision (event_kv e))%Z) (events resp).

(** The daemon watch has a live subscription or an armed timer, not both. *)
Definition watching_xor_backing_off (this : EtcdMetaService) : Prop :=
  subscribed this = negb (timer_pending this).

(** Inputs other than a call of [Stop]. *)
Definition not_stop (i : DaemonInput) : Prop :=
  match i with
  | InStop _ => False
  | _ => True
  end.

(** Timer events whose watcher cannot be created, and moves of [rev_]. *)
Definition failing_retry (i : DaemonInput) : Prop :=
  match i with
  | InTimer _ true => True
  | InRevision _ => True
  | _ => False
  end.

(** The key an operation of a transaction acts on. *)
Definition txn_key (o : TxnOp) : string :=
  match o with
  | TxnPut k _ => k
  | TxnDelete k => k
  end.

(** The lines the lock handle logs. *)
Definition double_unlock_line (traceback : string) : Severity * string :=
  (ERROR, "double unlock, traceback = " ++ traceback).

Definition failed_to_unlock_line (traceback : string) : Severity * string :=
  (ERROR, "failed to unlock: " ++ traceback).

Definition execute_unlock_line : Severity * string := (INFO, "execute unlock ...").

Definition sample_lock : EtcdLock :=
  EtcdLock_new "main+0x1A" (mk_release_closure "vineyard/lock/7" "main+0x1A") 3%Z.

(** A store whose first request fails. *)
Definition faulty_world : World MemStore := mem_world (mem_with_faults [5%Z]).




(** The watchers the service holds have not been cancelled. *)
Definition uncancelled (this : EtcdMetaService) : Prop :=
  forall wt, watcher_ this = Some wt -> watch_cancelled wt = false.

(** The lines logged at [ERROR] between two worlds. *)
Definition is_error (line : Severity * string) : bool :=
  match fst line with
  | ERROR => true
  | INFO => false
  end.

Definition new_errors {Store} (before after : World Store) : list (Severity * string) :=
  List.filter is_error (drop (length (diagnostics before)) (diagnostics after)).

(** A successful response that carries the given events. *)
Definition sample_response_of (es : list Event) : Response :=
  mk_response 0%Z "" 4%Z "" [] [] es.

Definition sample_changes : list op_t := [op_t_Put "/a" "1" 0%Z; op_t_Del "/b" 0%Z].

Definition sample_batch : Response :=
  mk_response 0%Z "" 4%Z "" [] []
    [mk_event PUT (mk_keyvalue "vineyard/a" "1" 4%Z);
     mk_event DELETE_ (mk_keyvalue "vineyard/b" "" 4%Z)].

Definition unrooted_change : op_t := op_t_Put "a" "1" 0%Z.

Definition unrooted_batch : Response :=
  mk_response 0%Z "" 4%Z "" ["vineyarda"] ["1"]
    [mk_event PUT (mk_keyvalue "vineyarda" "1" 4%Z)].

(** A service whose sync-lock name was never set. *)
Definition unconfigured : EtcdMetaService := mk_service "vineyard" "" 0%Z None None None.

Definition sample_snapshot : Response :=
  mk_response 0%Z "" 12%Z "" ["vineyard/a"; "vineyard/b/c"] ["1"; "2"] [].

(** * Part II: properties

    ** Strings *)

Lemma append_nil_l (s : string) : "" ++ s = s.
Proof. reflexivity. Qed.

Lemma append_String (c : ascii) (s t : string) : String c s ++ t = String c (s ++ t).
Proof. reflexivity. Qed.

Lemma append_assoc (s t u : string) : (s ++ t) ++ u = s ++ (t ++ u).
Proof.
  induction s as [|c s IH]; [reflexivity|].
  rewrite !append_String. f_equal. exact IH.
Qed.

Lemma strip_prefix_app (p r : string) : strip_prefix p (p ++ r) = Some r.
Proof.
  induction p as [|c p IH]; [reflexivity|].
  rewrite append_String. simpl. rewrite Ascii.eqb_refl. exact IH.
Qed.

Lemma strip_prefix_Some (p s r : string) : strip_prefix p s = Some r <-> s = p ++ r.
Proof.
  split.
  - revert s. induction p as [|c p IH]; intros s H; simpl in H.
    + rewrite append_nil_l. congruence.
    + destruct s as [|d s]; [discriminate|].
      destruct (Ascii.eqb_spec c d) as [->|]; [|discriminate].
      rewrite append_String. f_equal. apply IH. exact H.
  - intros ->. apply strip_prefix_app.
Qed.

Lemma starts_with_strip (s p : string) :
  starts_with s p = match strip_prefix p s with Some _ => true | None => false end.
Proof.
  revert s. induction p as [|c p IH]; intros s.
  - reflexivity.
  - destruct s as [|d s]; [reflexivity|].
    change (Ascii.eqb d c && starts_with s p =
            match (if Ascii.eqb c d then strip_prefix p s else None) with
            | Some _ => true
            | None => false
            end).
    rewrite (Ascii.eqb_sym d c). destruct (Ascii.eqb c d); [apply IH|reflexivity].
Qed.

Lemma starts_with_begins_with (s p : string) : starts_with s p = begins_with s p.
Proof.
  rewrite starts_with_strip. unfold begins_with.
  destruct (strip_prefix p s) eqn:E; symmetry.
  - apply bool_decide_eq_true. eauto.
  - apply bool_decide_eq_false. intros [? ?]. discriminate.
Qed.

Lemma starts_with_true (s p : string) :
  starts_with s p = true <-> exists r, s = p ++ r.
Proof.
  rewrite starts_with_strip. split.
  - destruct (strip_prefix p s) as [r|] eqn:E; [|discriminate].
    intros _. exists r. apply strip_prefix_Some. exact E.
  - intros [r ->]. rewrite strip_prefix_app. reflexivity.
Qed.

Lemma erase_head_copy_app (p r : string) : erase_head_copy (p ++ r) (String.length p) = r.
Proof. induction p as [|c p IH]; [reflexivity|]. rewrite append_String. exact IH. Qed.

(** When the key lies under [prefix + "/"], erasing [|prefix|] characters
    leaves the separator and the rest. *)
Lemma erase_head_copy_relative (prefix k rest : string) :
  strip_prefix (prefix ++ "/") k = Some rest ->
  erase_head_copy k (String.length prefix) = "/" ++ rest.
Proof.
  intros H. apply strip_prefix_Some in H as ->.
  rewrite append_assoc. apply erase_head_copy_app.
Qed.

(** ** The watch handler *)

Lemma watch_event_guarded (h : EtcdWatchHandler) (ops : list op_t) (e : Event) :
  watch_event h ops e =
  (ops ++ option_list (guarded_event_record (handler_prefix_ h) (filter_prefix_ h) e))%list.
Proof.
  unfold watch_event, guarded_event_record, relative_record.
  rewrite <- starts_with_begins_with.
  destruct (negb (string_empty (filter_prefix_ h)) &&
            starts_with (kv_key (event_kv e)) (filter_prefix_ h)).
  { simpl. rewrite app_nil_r. reflexivity. }
  rewrite starts_with_strip.
  destruct (strip_prefix (handler_prefix_ h ++ "/") (kv_key (event_kv e))) as [rest|] eqn:E;
    simpl.
  - rewrite (erase_head_copy_relative _ _ _ E).
    destruct (type e); simpl; rewrite ?app_nil_r; reflexivity.
  - rewrite app_nil_r. reflexivity.
Qed.

Lemma fold_left_watch_event (h : EtcdWatchHandler) (batch : list Event) (ops : list op_t) :
  fold_left (watch_event h) batch ops =
  (ops ++ guarded_watch_ops (handler_prefix_ h) (filter_prefix_ h) batch)%list.
Proof.
  revert ops. induction batch as [|e batch IH]; intros ops; simpl.
  - rewrite app_nil_r. reflexivity.
  - rewrite IH, watch_event_guarded. unfold guarded_watch_ops. simpl.
    rewrite <- app_assoc. f_equal.
    destruct (guarded_event_record _ _ e); reflexivity.
Qed.

Lemma watch_ops_guarded (h : EtcdWatchHandler) (resp : Response) :
  watch_ops h resp = guarded_watch_ops (handler_prefix_ h) (filter_prefix_ h) (events resp).
Proof. unfold watch_ops. rewrite fold_left_watch_event. reflexivity. Qed.

Lemma narrow_rev_fits (o : op_t) : fits_unsigned (rev (kv o)) -> narrow_rev o = o.
Proof.
  intros H. destruct o as [t [k v r]]. unfold narrow_rev, unsigned_wrap. cbn in *.
  rewrite Z.mod_small by exact H. reflexivity.
Qed.

Lemma relative_record_rev (prefix : string) (e : Event) (o : op_t) :
  relative_record prefix e = Some o -> rev (kv o) = mod_revision (event_kv e).
Proof.
  unfold relative_record.
  destruct (strip_prefix _ _) as [rest|]; [|discriminate].
  destruct (type e); intros [= <-]; reflexivity.
Qed.

(** With a sync-lock prefix that is not empty and a revision that fits 32
    bits, the record is the one the design document states. *)
Lemma guarded_stated_record (prefix sync_lock_prefix : string) (e : Event) :
  sync_lock_prefix <> "" -> fits_unsigned (mod_revision (event_kv e)) ->
  guarded_event_record prefix sync_lock_prefix e = stated_event_record prefix sync_lock_prefix e.
Proof.
  intros Hs He. unfold guarded_event_record, stated_event_record.
  replace (string_empty sync_lock_prefix) with false
    by (destruct sync_lock_prefix; [congruence|reflexivity]).
  cbn [negb andb]. destruct (begins_with _ _); [reflexivity|].
  destruct (relative_record prefix e) as [o|] eqn:E; [|reflexivity].
  cbn [fmap option_fmap option_map]. f_equal. apply narrow_rev_fits.
  rewrite (relative_record_rev _ _ _ E). exact He.
Qed.

(** C5: for every batch of watch events, the handler emits no record for
    an event whose key begins with the sync-lock prefix, when that prefix
    is not empty, or does not begin with [prefix + "/"]; for each other
    event it emits [Put{op_key, value, rev}] when the event is a PUT and
    [Del{op_key, rev}] when it is a DELETE, the key relative to the
    namespace prefix and [rev] the event's [mod_revision] narrowed to the
    32 bits of the record's field, and nothing for any other event type;
    the records are in the order of the events, and they are posted once
    to the callback with the status and the revision of the response.
    When the sync-lock prefix is not empty and every [mod_revision] fits
    32 bits, these are the records of the design document as it stands. *)
Theorem watch_handler_records {Store : Type} (h : EtcdWatchHandler) (resp : Response)
    (w : World Store) :
  let ops := guarded_watch_ops (handler_prefix_ h) (filter_prefix_ h) (events resp) in
  watch_ops h resp = ops /\
  EtcdWatchHandler_call h resp w =
    (tt,
     mk_world (store w) (calls w)
       (meta_context w ++ [PostOps (handler_callback_ h) (status_of resp) ops (index resp)])
       (diagnostics w)) /\
  (filter_prefix_ h <> "" ->
   Forall (fun e => fits_unsigned (mod_revision (event_kv e))) (events resp) ->
   ops = stated_watch_ops (handler_prefix_ h) (filter_prefix_ h) (events resp)).
Proof.
  cbv zeta. split; [apply watch_ops_guarded|]. split.
  - unfold EtcdWatchHandler_call, post. rewrite watch_ops_guarded. reflexivity.
  - intros Hf Hall. unfold guarded_watch_ops, stated_watch_ops.
    induction Hall as [|e es He _ IH]; [reflexivity|].
    cbn [omap list_omap]. rewrite (guarded_stated_record _ _ e Hf He), IH. reflexivity.
Qed.

(** C5 as stated fails in two ways.  Without the condition on the
    sync-lock prefix, for a handler whose sync-lock prefix is empty: every
    key begins with the empty prefix, so no record should be emitted, yet
    the handler emits the [Put].  And for an event whose [mod_revision]
    does not fit 32 bits, [2^32 + 5]: the record carries revision 5. *)
Lemma watch_handler_counterexample :
  let h := mk_handler 7 "vineyard" "" in
  let e := mk_event PUT (mk_keyvalue "vineyard/a" "1" 5%Z) in
  let resp := mk_response 0%Z "" 5%Z "" [] [] [e] in
  let h' := mk_handler 7 "vineyard" "vineyard/meta_sync_lock" in
  begins_with (kv_key (event_kv e)) (filter_prefix_ h) = true /\
  stated_watch_ops (handler_prefix_ h) (filter_prefix_ h) (events resp) = [] /\
  watch_ops h resp = [op_t_Put "/a" "1" 5%Z] /\
  stated_watch_ops (handler_prefix_ h') (filter_prefix_ h') (events wide_batch) =
    [op_t_Put "/a" "1" 4294967301%Z] /\
  watch_ops h' wide_batch = [op_t_Put "/a" "1" 5%Z].
Proof. vm_compute. auto 6. Qed.

(** The handler of the service on a batch of a [PUT] and a [DELETE] at
    revision 4. *)
Lemma watch_handler_records_witness :
  filter_prefix_ (service_handler vineyard 9) <> "" /\
  Forall (fun e => fits_unsigned (mod_revision (event_kv e))) (events sample_batch) /\
  watch_ops (service_handler vineyard 9) sample_batch =
    stated_watch_ops "vineyard" "vineyard/meta_sync_lock" (events sample_batch) /\
  stated_watch_ops "vineyard" "vineyard/meta_sync_lock" (events sample_batch) =
    [op_t_Put "/a" "1" 4%Z; op_t_Del "/b" 4%Z].
Proof.
  assert (Hf : filter_prefix_ (service_handler vineyard 9) <> "") by discriminate.
  assert (Hall : Forall (fun e => fits_unsigned (mod_revision (event_kv e)))
                   (events sample_batch))
    by (repeat (constructor; [unfold fits_unsigned, unsigned_modulus; cbn; lia|]);
        constructor).
  split; [exact Hf|]. split; [exact Hall|]. split; [|reflexivity].
  destruct (@watch_handler_records MemStore (service_handler vineyard 9) sample_batch
              (mem_world mem_empty)) as (Hops & _ & Hstated).
  cbv zeta in *. rewrite Hops. exact (Hstated Hf Hall).
Defined.

(** ** Keys of the emitted records *)

Lemma relative_record_rooted (prefix : string) (e : Event) (o : op_t) :
  relative_record prefix e = Some o -> starts_with (key (kv o)) "/" = true.
Proof.
  unfold relative_record.
  destruct (strip_prefix _ _) as [rest|]; [|discriminate].
  destruct (type e); intros [= <-]; reflexivity.
Qed.

Lemma guarded_event_record_Some (prefix sync_lock_prefix : string) (e : Event) (o : op_t) :
  guarded_event_record prefix sync_lock_prefix e = Some o ->
  negb (string_empty sync_lock_prefix) &&
    begins_with (kv_key (event_kv e)) sync_lock_prefix = false /\
  exists o', relative_record prefix e = Some o' /\ o = narrow_rev o'.
Proof.
  unfold guarded_event_record. destruct (_ && _); [discriminate|].
  destruct (relative_record prefix e) as [o'|]; [|discriminate].
  intros [= <-]. eauto.
Qed.

(** Every key the watch handler emits begins with the separator. *)
Lemma watch_ops_rooted (h : EtcdWatchHandler) (resp : Response) :
  Forall (fun o => starts_with (key (kv o)) "/" = true) (watch_ops h resp).
Proof.
  rewrite watch_ops_guarded. apply Forall_forall. intros o Ho.
  apply list_elem_of_omap in Ho as (e & _ & He).
  apply guarded_event_record_Some in He as (_ & o' & Ho' & ->).
  exact (relative_record_rooted _ _ _ Ho').
Qed.

(** ** The snapshot read *)

Section Snapshot.

Context {Store : Type} {client : EtcdClient Store}.

Lemma requestAll_step_stated (this : EtcdMetaService) (resp : Response) (ops : list op_t)
    (i : nat) (k v : string) :
  keys resp !! i = Some k -> values resp !! i = Some v ->
  requestAll_step this resp ops i =
  (ops ++ option_list (stated_snapshot_record (prefix_ this) (index resp) (k, v)))%list.
Proof.
  intros Hk Hv. unfold requestAll_step, resp_key, resp_value, stated_snapshot_record.
  rewrite Hk, Hv. simpl.
  rewrite starts_with_strip.
  destruct (strip_prefix (prefix_ this ++ "/") k) as [rest|] eqn:E; simpl.
  - rewrite (erase_head_copy_relative _ _ _ E).
    destruct k as [|c k]; simpl; [|reflexivity].
    apply strip_prefix_Some in E. exfalso.
    destruct (prefix_ this); discriminate.
  - destruct (string_empty k); rewrite app_nil_r; reflexivity.
Qed.

Lemma requestAll_loop_stated (this : EtcdMetaService) (resp : Response) (n first : nat)
    (ops : list op_t) :
  length (values resp) = length (keys resp) ->
  first + n <= length (keys resp) ->
  fold_left (requestAll_step this resp) (seq first n) ops =
  (ops ++ omap (stated_snapshot_record (prefix_ this) (index resp))
            (zip (take n (drop first (keys resp))) (take n (drop first (values resp)))))%list.
Proof.
  intros Hlen. revert first ops.
  induction n as [|n IH]; intros first ops Hn; simpl.
  - rewrite app_nil_r. reflexivity.
  - destruct (lookup_lt_is_Some_2 (keys resp) first) as [k Hk]; [lia|].
    destruct (lookup_lt_is_Some_2 (values resp) first) as [v Hv]; [lia|].
    rewrite (requestAll_step_stated _ _ _ _ _ _ Hk Hv).
    rewrite IH by lia.
    rewrite (drop_S _ _ _ Hk), (drop_S _ _ _ Hv). simpl.
    rewrite <- app_assoc. f_equal.
    destruct (stated_snapshot_record _ _ (k, v)); reflexivity.
Qed.

(** The list [requestAll] hands to the callback: as many value-initialised
    records as the snapshot has keys, then the records of the snapshot. *)
Lemma requestAll_ops_shape (this : EtcdMetaService) (resp : Response) :
  length (values resp) = length (keys resp) ->
  requestAll_ops this resp =
  (replicate (length (keys resp)) op_t_default ++ stated_snapshot_ops (prefix_ this) resp)%list.
Proof.
  intros Hlen. unfold requestAll_ops, stated_snapshot_ops.
  rewrite requestAll_loop_stated by (simpl; lia).
  rewrite !drop_0, (take_ge (keys resp)), (take_ge (values resp)) by lia.
  reflexivity.
Qed.

(** C9: [requestAll] does not depend on [base_rev]: two calls that differ
    only in it make the same request on the same store and post the same
    [(status, ops, rev)] for the same callback. *)
Theorem requestAll_ignores_base_rev (this : EtcdMetaService) (prefix : string)
    (base_rev base_rev' : unsigned) (callback : callback_t) (w : World Store) :
  let resp := fst (etcd_ls (prefix_ this ++ prefix) (store w)) in
  let after := snd (requestAll this prefix base_rev callback w) in
  requestAll this prefix base_rev callback w = requestAll this prefix base_rev' callback w /\
  new_calls w after = [mk_call (ReqLs (prefix_ this ++ prefix)) Continued resp] /\
  new_posts w after = [PostOps callback (status_of resp) (requestAll_ops this resp) (index resp)].
Proof.
  cbv zeta. split; [reflexivity|].
  unfold requestAll, M_bind, call, post, new_calls, new_posts.
  destruct (etcd_ls (prefix_ this ++ prefix) (store w)) as [resp s'].
  cbn [fst snd calls meta_context]. rewrite !drop_app_length. auto.
Qed.

End Snapshot.

(** C6 fails on the code: on a snapshot of the single key ["vineyard/a"]
    the callback receives two records, a value-initialised one and then
    the [Put] of ["/a"] at the snapshot revision, where the design document
    has the [Put] alone. *)
Theorem requestAll_default_records :
  let w := snd (requestAll vineyard "" 0%Z 8 (mem_world snapshot_store)) in
  let resp := fst (mem_ls "vineyard" snapshot_store) in
  keys resp = ["vineyard/a"] /\ values resp = ["1"] /\ index resp = 1%Z /\
  stated_snapshot_ops "vineyard" resp = [op_t_Put "/a" "1" 1%Z] /\
  meta_context w = [PostOps 8 StatusOK [op_t_default; op_t_Put "/a" "1" 1%Z] 1%Z].
Proof. vm_compute. auto 6. Qed.

(** C10 fails on the code for [requestAll]: on the same snapshot, the
    list handed to the callback holds a record whose key does not begin
    with the separator (the value-initialised record, with the empty key). *)
Theorem requestAll_unrooted_key :
  let w := snd (requestAll vineyard "" 0%Z 8 (mem_world snapshot_store)) in
  exists status ops r,
    meta_context w = [PostOps 8 status ops r] /\
    exists o, o ∈ ops /\ starts_with (key (kv o)) "/" = false.
Proof.
  eexists _, _, _. split; [vm_compute; reflexivity|].
  exists op_t_default. split; [left|reflexivity].
Qed.

(** ** The lock handle *)

Section Lock.

Context {Store : Type} {client : EtcdClient Store}.

Lemma new_calls_app (w w' : World Store) (cs : list Call) :
  calls w' = (calls w ++ cs)%list -> new_calls w w' = cs.
Proof. intros H. unfold new_calls. rewrite H. apply drop_app_length. Qed.

Lemma set_released_true (l : EtcdLock) : released_ l = true -> set_released_ l true = l.
Proof. destruct l; simpl; intros ->; reflexivity. Qed.

Lemma Release_unreleased (l : EtcdLock) (r : unsigned) (w : World Store) :
  released_ l = false ->
  Release l r w =
  let k := captured_lock_key (callback_ l) in
  let unlock_resp := fst (etcd_unlock k (store w)) in
  ((Status_EtcdError (error_code unlock_resp) (error_message unlock_resp),
    if is_ok unlock_resp then index unlock_resp else r,
    set_released_ l true),
   mk_world (snd (etcd_unlock k (store w)))
     (calls w ++ [unlock_call l (store w)])
     (meta_context w)
     (diagnostics w ++ [(INFO, "execute unlock ...")])).
Proof.
  intros H. unfold Release, Release_after_exchange, unlock_call. rewrite H. simpl.
  unfold M_bind, LOG, release_closure_call, M_bind, call, M_ret. simpl.
  destruct (etcd_unlock (captured_lock_key (callback_ l)) (store w)) as [resp s'].
  reflexivity.
Qed.

Lemma Release_released (l : EtcdLock) (r : unsigned) (w : World Store) :
  released_ l = true ->
  Release l r w =
  ((Status_Invalid "double unlock", r, l),
   mk_world (store w) (calls w) (meta_context w)
     (diagnostics w ++ [(ERROR, "double unlock, traceback = " ++ traceback_ l)])).
Proof.
  intros H. unfold Release, Release_after_exchange. rewrite H. simpl.
  rewrite (set_released_true l H). reflexivity.
Qed.

(** A call of [Release] leaves the handle released, and contacts the store
    exactly when the handle was not. *)
Lemma Release_effect (l : EtcdLock) (r : unsigned) (w : World Store) :
  released_ (snd (fst (Release l r w))) = true /\
  callback_ (snd (fst (Release l r w))) = callback_ l /\
  calls (snd (Release l r w)) =
    (calls w ++ if released_ l then [] else [unlock_call l (store w)])%list /\
  store (snd (Release l r w)) =
    if released_ l then store w
    else snd (etcd_unlock (captured_lock_key (callback_ l)) (store w)).
Proof.
  destruct (released_ l) eqn:H.
  - rewrite (Release_released l r w H). simpl. rewrite app_nil_r. auto.
  - rewrite (Release_unreleased l r w H). simpl. auto.
Qed.

Lemma EtcdLock_destroy_effect (l : EtcdLock) (w : World Store) :
  released_ (fst (EtcdLock_destroy l w)) = true /\
  callback_ (fst (EtcdLock_destroy l w)) = callback_ l /\
  calls (snd (EtcdLock_destroy l w)) =
    (calls w ++ if released_ l then [] else [unlock_call l (store w)])%list /\
  store (snd (EtcdLock_destroy l w)) =
    if released_ l then store w
    else snd (etcd_unlock (captured_lock_key (callback_ l)) (store w)).
Proof.
  unfold EtcdLock_destroy. destruct (released_ l) eqn:H; simpl.
  - rewrite app_nil_r. auto.
  - unfold M_bind, LOG. simpl.
    match goal with |- context [Release l ?r ?w'] =>
      destruct (Release_effect l r w') as (H1 & H2 & H3 & H4);
      destruct (Release l r w') as [[[st r'] l'] w''] end.
    simpl in *. rewrite H in H3, H4. auto.
Qed.

Lemma lock_use_effect (u : LockUse) (l : EtcdLock) (w : World Store) :
  released_ (fst (lock_use u l w)) = true /\
  callback_ (fst (lock_use u l w)) = callback_ l /\
  calls (snd (lock_use u l w)) =
    (calls w ++ if released_ l then [] else [unlock_call l (store w)])%list /\
  store (snd (lock_use u l w)) =
    if released_ l then store w
    else snd (etcd_unlock (captured_lock_key (callback_ l)) (store w)).
Proof.
  destruct u as [r|]; simpl.
  - unfold M_bind, M_ret.
    destruct (Release_effect l r w) as (H1 & H2 & H3 & H4).
    destruct (Release l r w) as [[[st r'] l'] w']. simpl in *. auto.
  - apply EtcdLock_destroy_effect.
Qed.

Lemma lock_uses_released (us : list LockUse) (l : EtcdLock) (w : World Store) :
  released_ l = true ->
  released_ (fst (lock_uses us l w)) = true /\
  calls (snd (lock_uses us l w)) = calls w /\
  store (snd (lock_uses us l w)) = store w.
Proof.
  revert l w. induction us as [|u us IH]; intros l w H; simpl; [auto|].
  unfold M_bind. destruct (lock_use_effect u l w) as (H1 & _ & H3 & H4).
  destruct (lock_use u l w) as [l' w']. simpl in *.
  destruct (IH l' w' H1) as (I1 & I2 & I3).
  rewrite I2, I3, H3, H4, H, app_nil_r. auto.
Qed.


Lemma Release_after_exchange_true (l : EtcdLock) (r : unsigned) (w : World Store) :
  calls (snd (Release_after_exchange l true r w)) = calls w.
Proof. reflexivity. Qed.





(** [Release] is the exchange followed by the call of the closure. *)
Lemma Release_as_steps (l : EtcdLock) (r : unsigned) (d : bool) (w : World Store) :
  run_handle (fst (lock_steps [StepExchange r; StepUnlock] (mk_lock_run l d None) w)) =
    snd (fst (Release l r w)) /\
  snd (lock_steps [StepExchange r; StepUnlock] (mk_lock_run l d None) w) = snd (Release l r w).
Proof.
  unfold lock_steps, lock_step, lock_exchange, Release, M_bind, M_ret.
  cbn [run_handle run_winner run_dtor_pending].
  destruct (released_ l); cbn [negb].
  - destruct (Release_after_exchange (set_released_ l true) true r w) as [res w'].
    cbn. auto.
  - cbn [fst snd run_handle run_winner run_dtor_pending].
    destruct (Release_after_exchange (set_released_ l true) false r w) as [res w'].
    cbn. auto.
Qed.


(** [requestLock] makes one lock call and posts the handle built from the
    answer. *)
Lemma requestLock_posts (this : EtcdMetaService) (traceback lock_name : string)
    (callback : callback_t) (w : World Store) :
  let resp := fst (etcd_lock (prefix_ this ++ lock_name) (store w)) in
  let after := snd (requestLock this traceback lock_name callback w) in
  new_calls w after = [mk_call (ReqLock (prefix_ this ++ lock_name)) Continued resp] /\
  new_posts w after = [PostLocked callback (status_of resp) (requested_handle traceback resp)].
Proof.
  cbv zeta. unfold requestLock, M_bind, call, post, new_calls, new_posts.
  destruct (etcd_lock (prefix_ this ++ lock_name) (store w)) as [resp s'].
  cbn [fst snd calls meta_context]. rewrite !drop_app_length. auto.
Qed.



(** C2: the first call of [Release] on the handle [requestLock] makes
    calls the stored closure: one unlock of the lock key at the backing
    store, awaited; the out-parameter takes the revision of the answer when
    the answer is a success; the status is OK or the store's error.  After
    that, and after any number of further calls, a call returns
    [Invalid("double unlock")], leaves the out-parameter alone and makes no
    call on the backing store. *)
Theorem Release_then_double_unlock (this : EtcdMetaService) (traceback lock_name : string)
    (callback : callback_t) (w0 : World Store)
    (r : unsigned) (again : list unsigned) (r' : unsigned) (w : World Store) :
  let lock_resp := fst (etcd_lock (prefix_ this ++ lock_name) (store w0)) in
  let l := requested_handle traceback lock_resp in
  let unlock_resp := fst (etcd_unlock (lock_key lock_resp) (store w)) in
  let first := Release l r w in
  let later := lock_uses (map UseRelease again) (snd (fst first)) (snd first) in
  let next := Release (fst later) r' (snd later) in
  new_posts w0 (snd (requestLock this traceback lock_name callback w0)) =
    [PostLocked callback (status_of lock_resp) l] /\
  fst (fst (fst first)) =
    (if is_ok unlock_resp then StatusOK
     else StatusEtcdError (error_code unlock_resp) (error_message unlock_resp)) /\
  snd (fst (fst first)) = (if is_ok unlock_resp then index unlock_resp else r) /\
  new_calls w (snd first) = [mk_call (ReqUnlock (lock_key lock_resp)) Awaited unlock_resp] /\
  store (snd first) = snd (etcd_unlock (lock_key lock_resp) (store w)) /\
  fst (fst next) = (StatusInvalid "double unlock", r') /\
  calls (snd next) = calls (snd first) /\
  store (snd next) = store (snd first).
Proof.
  cbv zeta. split; [apply requestLock_posts|].
  set (lock_resp := fst (etcd_lock (prefix_ this ++ lock_name) (store w0))).
  assert (Hl : released_ (requested_handle traceback lock_resp) = false) by reflexivity.
  rewrite (Release_unreleased _ r w Hl). cbn [fst snd].
  match goal with |- context [lock_uses ?us ?l1 ?w1] =>
    destruct (lock_uses_released us l1 w1) as (Hrel & Hcalls & Hstore); [reflexivity|];
    destruct (lock_uses us l1 w1) as [ln wn] end.
  cbn [fst snd] in *.
  rewrite (Release_released ln r' wn Hrel). cbn [fst snd calls store].
  unfold Status_EtcdError, is_ok.
  repeat split.
  - apply new_calls_app. reflexivity.
  - exact Hcalls.
  - exact Hstore.
Qed.

End Lock.

(** ** The chunked commit *)

Section Commit.

Context {Store : Type} {client : EtcdClient Store}.

Lemma setup_op_snoc (this : EtcdMetaService) (tx : list TxnOp) (o : op_t) :
  setup_op this tx o = (tx ++ [txn_op_of (prefix_ this) o])%list.
Proof. unfold setup_op, txn_op_of, setup_put, setup_delete. destruct (op o); reflexivity. Qed.

Lemma setup_loop_map (this : EtcdMetaService) (changes : list op_t) (n first : nat)
    (tx : list TxnOp) :
  fold_left
    (fun tx idx =>
       match changes !! idx with
       | Some o => setup_op this tx o
       | None => tx
       end)
    (seq first n) tx =
  (tx ++ map (txn_op_of (prefix_ this)) (take n (drop first changes)))%list.
Proof.
  revert first tx. induction n as [|n IH]; intros first tx.
  - simpl. rewrite app_nil_r. reflexivity.
  - cbn [seq fold_left]. rewrite IH.
    destruct (changes !! first) as [o|] eqn:E.
    + rewrite (drop_S _ _ _ E), setup_op_snoc. cbn [take map].
      rewrite <- app_assoc. reflexivity.
    + apply lookup_ge_None in E.
      rewrite !drop_ge by lia. rewrite !take_nil. reflexivity.
Qed.

Lemma setup_range_map (this : EtcdMetaService) (changes : list op_t) (first last : nat) :
  setup_range this changes first last =
  map (txn_op_of (prefix_ this)) (take (last - first) (drop first changes)).
Proof. unfold setup_range. rewrite setup_loop_map. reflexivity. Qed.

Lemma commit_loop_submit (this : EtcdMetaService) (changes : list op_t)
    (callback : callback_t) (offset : nat) (w : World Store) :
  commit_loop this changes callback offset w =
  let k := (length changes - offset - 1) / 127 in
  let txs :=
    map (fun i => map (txn_op_of (prefix_ this)) (take 127 (drop (offset + 127 * i) changes)))
      (seq 0 k) in
  match submit_awaited callback txs w with
  | (true, w') => (Fallthrough (offset + 127 * k), w')
  | (false, w') => (Returned, w')
  end.
Proof.
  funelim (commit_loop this changes callback offset w).
  - assert (Hk : (length changes - offset - 1) / 127 =
                 S ((length changes - (offset + 127) - 1) / 127)).
    { replace (length changes - offset - 1)
        with (length changes - (offset + 127) - 1 + 1 * 127) by lia.
      rewrite Nat.div_add by lia. lia. }
    clear Heqcall Heq. cbv zeta. rewrite Hk. clear Hk.
    set (k := (length changes - (offset + 127) - 1) / 127) in *.
    cbn [seq map submit_awaited].
    rewrite setup_range_map.
    replace (offset + 127 - offset) with 127 by lia.
    replace (offset + 127 * 0) with offset by lia.
    match goal with |- context [call ?q Awaited ?f w] =>
      destruct (call q Awaited f w) as [resp w1] end.
    destruct (is_ok resp).
    + rewrite H by exact resp. cbv zeta.
      rewrite <- (fmap_S_seq 0), map_map.
      rewrite (map_ext
                 (fun i => map (txn_op_of (prefix_ this))
                   (take 127 (drop (offset + 127 * S i) changes)))
                 (fun i => map (txn_op_of (prefix_ this))
                   (take 127 (drop (offset + 127 + 127 * i) changes)))).
      2:{ intros i. do 3 f_equal. lia. }
      destruct (submit_awaited _ _ w1) as [[] w']; [|reflexivity].
      do 2 f_equal. lia.
    + reflexivity.
  - cbv zeta. rewrite Nat.div_small by lia. cbn [seq map submit_awaited].
    do 2 f_equal. lia.
Qed.

Lemma chunk_count_iterations (n : nat) :
  Nat.max 1 (div_ceil n 127) = S ((n - 1) / 127).
Proof.
  unfold div_ceil. destruct n as [|n].
  - reflexivity.
  - replace (S n + 127 - 1) with (n + 1 * 127) by lia.
    rewrite Nat.div_add by lia.
    replace (S n - 1) with n by lia. lia.
Qed.

Lemma fmap_chunk {A B} (f : A -> B) (l : list A) (i : nat) :
  map f (take 127 (drop (127 * i) l)) = chunk (map f l) i.
Proof. unfold chunk. rewrite <- fmap_drop, <- fmap_take. reflexivity. Qed.

Lemma chunk_last {A} (l : list A) :
  drop (127 * ((length l - 1) / 127)) l = chunk l ((length l - 1) / 127).
Proof.
  unfold chunk. symmetry. apply take_ge. rewrite length_drop.
  pose proof (Nat.div_mod_eq (length l - 1) 127).
  pose proof (Nat.mod_upper_bound (length l - 1) 127). lia.
Qed.

Lemma concat_chunks {A} (l : list A) (n : nat) :
  concat (map (chunk l) (seq 0 n)) = take (127 * n) l.
Proof.
  induction n as [|n IH].
  - rewrite Nat.mul_0_r. reflexivity.
  - rewrite seq_S, map_app, concat_app, IH. cbn [map concat]. rewrite app_nil_r.
    unfold chunk. rewrite take_take_drop. f_equal. lia.
Qed.

Lemma length_chunk_le {A} (l : list A) (i : nat) : length (chunk l i) <= 127.
Proof. unfold chunk. rewrite length_take. lia. Qed.

Lemma commitUpdates_submit (this : EtcdMetaService) (changes : list op_t)
    (callback : callback_t) (w : World Store) :
  commitUpdates this changes callback w =
  let ops := map (txn_op_of (prefix_ this)) changes in
  let k := (length changes - 1) / 127 in
  match submit_awaited callback (map (chunk ops) (seq 0 k)) w with
  | (true, w') => submit_continued callback (chunk ops k) w'
  | (false, w') => (tt, w')
  end.
Proof.
  unfold commitUpdates. rewrite commit_loop_submit. cbv zeta.
  replace (length changes - 0 - 1) with (length changes - 1) by lia.
  set (k := (length changes - 1) / 127).
  rewrite (map_ext
             (fun i => map (txn_op_of (prefix_ this)) (take 127 (drop (0 + 127 * i) changes)))
             (chunk (map (txn_op_of (prefix_ this)) changes))).
  2:{ intros i. apply fmap_chunk. }
  destruct (submit_awaited _ _ w) as [[] w']; [|reflexivity].
  rewrite setup_range_map. rewrite take_ge by (rewrite length_drop; lia).
  replace (0 + 127 * k) with (127 * k) by lia.
  rewrite fmap_drop. subst k.
  rewrite <- (length_map (txn_op_of (prefix_ this)) changes), chunk_last.
  reflexivity.
Qed.

Lemma served_app (s s' s'' : Store) (cs cs' : list Call) :
  served s cs s' -> served s' cs' s'' -> served s (cs ++ cs') s''.
Proof.
  induction 1 as [|s c cs s' Hc _ IH]; intros H'; [exact H'|].
  simpl. constructor; [exact Hc|]. apply IH. exact H'.
Qed.

Lemma served_one (req : Request) (how : Completion) (s : Store) :
  served s [mk_call req how (fst (run_request req s))] (snd (run_request req s)).
Proof. constructor; [reflexivity|constructor]. Qed.

Lemma submit_awaited_outcome (callback : callback_t) (txs : list (list TxnOp))
    (w : World Store) :
  exists cs,
    calls (snd (submit_awaited callback txs w)) = (calls w ++ cs)%list /\
    served (store w) cs (store (snd (submit_awaited callback txs w))) /\
    Forall (fun c => call_completion c = Awaited) cs /\
    map call_request cs = map ReqTxn (take (length cs) txs) /\
    if fst (submit_awaited callback txs w)
    then length cs = length txs /\ Forall succeeded cs /\
         meta_context (snd (submit_awaited callback txs w)) = meta_context w
    else exists cs0 c,
         cs = (cs0 ++ [c])%list /\ Forall succeeded cs0 /\
         is_ok (call_response c) = false /\
         meta_context (snd (submit_awaited callback txs w)) =
           (meta_context w ++
            [PostUpdated callback (status_of (call_response c)) (index (call_response c))])%list.
Proof.
  revert w. induction txs as [|tx txs IH]; intros w.
  - exists []. simpl. rewrite app_nil_r. repeat split; constructor.
  - cbn [submit_awaited]. unfold call.
    pose proof (served_one (ReqTxn tx) Awaited (store w)) as Hs. cbn [run_request] in Hs.
    destruct (etcd_txn tx (store w)) as [resp s'] eqn:E. cbn [fst snd] in Hs.
    destruct (is_ok resp) eqn:Hok.
    + match goal with |- context [submit_awaited callback txs ?w1] =>
        destruct (IH w1) as (cs & Hc & Hsv & Haw & Hreq & Hres);
        destruct (submit_awaited callback txs w1) as [b w2] end.
      cbn [fst snd calls store meta_context] in *.
      exists (mk_call (ReqTxn tx) Awaited resp :: cs).
      split; [rewrite Hc, <- app_assoc; reflexivity|].
      split; [exact (served_app _ _ _ [_] _ Hs Hsv)|].
      split; [constructor; [reflexivity|exact Haw]|].
      split; [cbn [length take map]; rewrite Hreq; reflexivity|].
      destruct b.
      * destruct Hres as (Hlen & Hall & Hm). cbn [length].
        repeat split; [lia| |exact Hm]. constructor; [exact Hok|exact Hall].
      * destruct Hres as (cs0 & c & -> & Hall & Hfail & Hm).
        exists (mk_call (ReqTxn tx) Awaited resp :: cs0), c.
        repeat split; [|exact Hfail|exact Hm]. constructor; [exact Hok|exact Hall].
    + cbn [fst snd post calls store meta_context].
      exists [mk_call (ReqTxn tx) Awaited resp].
      split; [reflexivity|]. split; [exact Hs|].
      split; [repeat constructor|]. split; [reflexivity|].
      exists [], (mk_call (ReqTxn tx) Awaited resp).
      repeat split; [constructor|exact Hok].
Qed.

Lemma requests_transactions (cs : list Call) (txs : list (list TxnOp)) :
  map call_request cs = map ReqTxn txs ->
  map transaction_of cs = txs /\ Forall (fun c => is_transaction c = true) cs.
Proof.
  revert txs. induction cs as [|c cs IH]; intros [|tx txs] H; try discriminate.
  - split; constructor.
  - cbn [map] in H. injection H as Hc Hcs. destruct (IH txs Hcs) as [I1 I2].
    unfold transaction_of, is_transaction in *. split.
    + cbn [map]. rewrite Hc, I1. reflexivity.
    + constructor; [rewrite Hc; reflexivity|exact I2].
Qed.

(** What [commitUpdates] does, in full: either every awaited transaction
    succeeds and the last chunk goes out with a continuation that posts
    the callback, or an awaited transaction fails, which posts the
    callback and ends the call. *)
Lemma commitUpdates_outcome (this : EtcdMetaService) (changes : list op_t)
    (callback : callback_t) (w : World Store) :
  let w' := snd (commitUpdates this changes callback w) in
  let ops := map (txn_op_of (prefix_ this)) changes in
  let k := (length changes - 1) / 127 in
  served (store w) (new_calls w w') (store w') /\
  map call_request (new_calls w w') =
    map ReqTxn (map (chunk ops) (seq 0 (length (new_calls w w')))) /\
  exists leading c,
    new_calls w w' = (leading ++ [c])%list /\
    Forall succeeded leading /\
    Forall (fun c => call_completion c = Awaited) leading /\
    new_posts w w' =
      [PostUpdated callback (status_of (call_response c)) (index (call_response c))] /\
    ((call_completion c = Continued /\ length leading = k) \/
     (call_completion c = Awaited /\ is_ok (call_response c) = false /\ length leading < k)).
Proof.
  cbv zeta. rewrite commitUpdates_submit. cbv zeta.
  set (ops := map (txn_op_of (prefix_ this)) changes).
  set (k := (length changes - 1) / 127).
  destruct (submit_awaited_outcome callback (map (chunk ops) (seq 0 k)) w)
    as (cs & Hc & Hsv & Haw & Hreq & Hres).
  assert (Hlen : length cs <= k).
  { apply (f_equal length) in Hreq.
    rewrite !length_map, length_take, length_map, length_seq in Hreq. lia. }
  rewrite <- fmap_take, take_seq, Nat.min_l in Hreq by exact Hlen.
  destruct (submit_awaited callback (map (chunk ops) (seq 0 k)) w) as [b w1].
  cbn [fst snd] in *. destruct b.
  - destruct Hres as (Hk & Hall & Hm).
    rewrite length_map, length_seq in Hk.
    unfold submit_continued, M_bind, call, post.
    pose proof (served_one (ReqTxn (chunk ops k)) Continued (store w1)) as Hs.
    cbn [run_request] in Hs.
    destruct (etcd_txn (chunk ops k) (store w1)) as [resp s'].
    cbn [fst snd calls store meta_context diagnostics] in *.
    assert (Hnew : new_calls w
              (mk_world s' (calls w1 ++ [mk_call (ReqTxn (chunk ops k)) Continued resp])
                 (meta_context w1 ++ [PostUpdated callback (status_of resp) (index resp)])
                 (diagnostics w1)) =
            (cs ++ [mk_call (ReqTxn (chunk ops k)) Continued resp])%list).
    { apply new_calls_app. cbn [calls]. rewrite Hc, <- app_assoc. reflexivity. }
    rewrite Hnew. split; [exact (served_app _ _ _ _ _ Hsv Hs)|]. split.
    + rewrite length_app, Hk. cbn [length]. rewrite Nat.add_1_r, seq_S, !map_app, Hreq, Hk.
      reflexivity.
    + exists cs, (mk_call (ReqTxn (chunk ops k)) Continued resp).
      repeat split; [exact Hall|exact Haw| |left; auto].
      unfold new_posts. cbn [meta_context]. rewrite Hm. apply drop_app_length.
  - destruct Hres as (cs0 & c & -> & Hall & Hfail & Hm).
    cbn [snd]. rewrite (new_calls_app w w1 _ Hc).
    split; [exact Hsv|]. split; [exact Hreq|].
    exists cs0, c. apply Forall_app in Haw as [Haw0 Hawc].
    repeat split; [exact Hall|exact Haw0| |right].
    + unfold new_posts. rewrite Hm. apply drop_app_length.
    + rewrite length_app in Hlen. cbn [length] in Hlen.
      repeat split; [|exact Hfail|lia]. inversion Hawc; assumption.
Qed.

(** C3: when every awaited transaction of [commitUpdates changes]
    succeeds, the call issues exactly [max 1 (ceil (N / 127))] transactions
    for [N = |changes|]: each holds at most 127 operations, together they
    are the changes in input order, all but the last are awaited and the
    last is submitted with a continuation, and each is answered by the
    store as the previous one left it. *)
Theorem commitUpdates_transactions (this : EtcdMetaService) (changes : list op_t)
    (callback : callback_t) (w : World Store) :
  let w' := snd (commitUpdates this changes callback w) in
  let made := new_calls w w' in
  Forall (fun c => call_completion c = Awaited -> is_ok (call_response c) = true) made ->
  length made = Nat.max 1 (div_ceil (length changes) 127) /\
  Forall (fun c => is_transaction c = true /\ length (transaction_of c) <= 127) made /\
  concat (map transaction_of made) = map (txn_op_of (prefix_ this)) changes /\
  map call_completion made = (replicate (length made - 1) Awaited ++ [Continued])%list /\
  served (store w) made (store w').
Proof.
  cbv zeta. intros Hok.
  destruct (commitUpdates_outcome this changes callback w)
    as (Hsv & Hreq & leading & c & Hmade & Hall & Haw & _ & Hlast).
  cbv zeta in *.
  set (made := new_calls w (snd (commitUpdates this changes callback w))) in *.
  set (ops := map (txn_op_of (prefix_ this)) changes) in *.
  destruct Hlast as [[Hcont Hk]|(Hawc & Hfail & _)].
  2:{ rewrite Hmade in Hok. apply Forall_app in Hok as [_ Hc].
      inversion Hc as [|? ? Hc' _]. rewrite (Hc' Hawc) in Hfail. discriminate. }
  assert (Hlen : length made = S ((length changes - 1) / 127)).
  { rewrite Hmade, length_app, Hk. cbn [length]. lia. }
  destruct (requests_transactions _ _ Hreq) as [Htx Hist].
  split; [rewrite chunk_count_iterations; exact Hlen|].
  split; [|split; [|split; [|exact Hsv]]].
  - apply Forall_forall. intros x Hx. split.
    + revert x Hx. apply Forall_forall. exact Hist.
    + assert (Hin : transaction_of x ∈ map transaction_of made)
        by (apply (list_elem_of_fmap_2 transaction_of); exact Hx).
      rewrite Htx in Hin. apply list_elem_of_fmap in Hin as (i & -> & _).
      apply length_chunk_le.
  - rewrite Htx, concat_chunks, Hlen. apply take_ge. subst ops. rewrite length_map.
    pose proof (Nat.div_mod_eq (length changes - 1) 127).
    pose proof (Nat.mod_upper_bound (length changes - 1) 127). lia.
  - rewrite Hlen. replace (S ((length changes - 1) / 127) - 1) with (length leading) by lia.
    rewrite Hmade, map_app. cbn [map]. rewrite Hcont. f_equal.
    clear -Haw. induction Haw as [|x xs Hx _ IH]; [reflexivity|].
    cbn [map length replicate]. rewrite Hx, IH. reflexivity.
Qed.

(** C4: when an awaited transaction of [commitUpdates], the [i]-th, fails,
    it is the last one submitted; the callback is posted exactly once, with
    the status and the revision of that answer; the transactions before it
    succeeded, each the chunk of its rank; and the store is the one these
    calls left, nothing being sent to undo the earlier chunks. *)
Theorem commitUpdates_intermediate_failure (this : EtcdMetaService) (changes : list op_t)
    (callback : callback_t) (w : World Store) (i : nat) (c : Call) :
  let w' := snd (commitUpdates this changes callback w) in
  let made := new_calls w w' in
  made !! i = Some c ->
  call_completion c = Awaited ->
  is_ok (call_response c) = false ->
  length made = S i /\
  new_posts w w' =
    [PostUpdated callback
       (StatusEtcdError (error_code (call_response c)) (error_message (call_response c)))
       (index (call_response c))] /\
  (forall j c', made !! j = Some c' ->
     call_request c' =
       ReqTxn (map (txn_op_of (prefix_ this)) (take 127 (drop (127 * j) changes))) /\
     (j < i -> is_ok (call_response c') = true)) /\
  served (store w) made (store w').
Proof.
  cbv zeta. intros Hi Hawait Hfail.
  destruct (commitUpdates_outcome this changes callback w)
    as (Hsv & Hreq & leading & c0 & Hmade & Hall & Haw & Hposts & Hlast).
  cbv zeta in *.
  set (made := new_calls w (snd (commitUpdates this changes callback w))) in *.
  assert (Hc : i = length leading /\ c = c0).
  { rewrite Hmade in Hi. destruct (decide (i < length leading)) as [Hlt|Hge].
    - rewrite lookup_app_l in Hi by exact Hlt.
      rewrite Forall_forall in Hall. apply list_elem_of_lookup_2 in Hi.
      specialize (Hall c Hi). unfold succeeded in Hall. congruence.
    - rewrite lookup_app_r in Hi by lia.
      destruct (i - length leading) as [|n] eqn:En; [|discriminate].
      cbn in Hi. split; [lia|congruence]. }
  destruct Hc as [-> ->].
  split; [rewrite Hmade, length_app; cbn [length]; lia|].
  split.
  { rewrite Hposts. unfold status_of, Status_EtcdError. unfold is_ok in Hfail.
    rewrite Hfail. reflexivity. }
  split; [|exact Hsv].
  intros j c' Hj. split.
  - apply (f_equal (fun l => l !! j)) in Hreq.
    rewrite !list_lookup_fmap, Hj in Hreq. cbn [fmap option_fmap option_map] in Hreq.
    rewrite lookup_seq_lt in Hreq by (apply lookup_lt_Some in Hj; exact Hj).
    cbn in Hreq. injection Hreq as ->. rewrite fmap_chunk. reflexivity.
  - intros Hlt. rewrite Hmade, lookup_app_l in Hj by exact Hlt.
    rewrite Forall_forall in Hall. apply (Hall c'). eapply list_elem_of_lookup_2. exact Hj.
Qed.

End Commit.

(** C3 as stated, for every call, fails in two ways: with no change at
    all one (empty) transaction is issued where [ceil (0 / 127) = 0]; and
    with 128 changes and a store that rejects the first transaction, one
    transaction is issued where [ceil (128 / 127) = 2]. *)
Lemma commitUpdates_count_counterexample :
  let idle := mem_world mem_empty in
  let failing := mem_world (mem_with_faults [5%Z]) in
  (length (new_calls idle (snd (commitUpdates vineyard [] 7 idle))) = 1 /\
   div_ceil (length (@nil op_t)) 127 = 0) /\
  (length (new_calls failing (snd (commitUpdates vineyard (numbered_puts 128) 7 failing))) = 1 /\
   div_ceil (length (numbered_puts 128)) 127 = 2).
Proof. vm_compute. auto. Qed.

(** 300 puts on a healthy store: three transactions of 127, 127 and 46
    operations. *)
Lemma commitUpdates_transactions_witness :
  let w := mem_world mem_empty in
  let w' := snd (commitUpdates vineyard (numbered_puts 300) 7 w) in
  let made := new_calls w w' in
  Forall (fun c => call_completion c = Awaited -> is_ok (call_response c) = true) made /\
  length made = 3 /\
  map (fun c => length (transaction_of c)) made = [127; 127; 46] /\
  concat (map transaction_of made) = map (txn_op_of "vineyard") (numbered_puts 300) /\
  map call_completion made = [Awaited; Awaited; Continued].
Proof.
  cbv zeta.
  assert (H : Forall (fun c => call_completion c = Awaited -> is_ok (call_response c) = true)
                (new_calls (mem_world mem_empty)
                   (snd (commitUpdates vineyard (numbered_puts 300) 7 (mem_world mem_empty))))).
  { vm_compute. repeat (constructor; [intros _; reflexivity|]). constructor. }
  split; [exact H|].
  destruct (commitUpdates_transactions vineyard (numbered_puts 300) 7 (mem_world mem_empty) H)
    as (Hlen & _ & Hcat & Hmodes & _).
  split; [exact Hlen|]. split; [vm_compute; reflexivity|].
  split; [exact Hcat|]. rewrite Hmodes, Hlen. reflexivity.
Defined.

(** 300 puts on a store that rejects the second transaction: two
    transactions, one post, and the writes of the first chunk are in the
    store while those of the second and third are not. *)
Lemma commitUpdates_intermediate_failure_witness :
  let w := mem_world (mem_with_faults [0%Z; 5%Z]) in
  let w' := snd (commitUpdates vineyard (numbered_puts 300) 7 w) in
  let made := new_calls w w' in
  made !! 1 = Some failed_chunk /\
  length made = 2 /\
  new_posts w w' = [PostUpdated 7 (StatusEtcdError 5%Z "injected fault") 1%Z] /\
  mem_kvs (store w') !! "vineyard/k1" = Some "v" /\
  mem_kvs (store w') !! "vineyard/k127" = Some "v" /\
  mem_kvs (store w') !! "vineyard/k128" = None /\
  mem_kvs (store w') !! "vineyard/k300" = None.
Proof.
  cbv zeta.
  assert (H : new_calls (mem_world (mem_with_faults [0%Z; 5%Z]))
                (snd (commitUpdates vineyard (numbered_puts 300) 7
                        (mem_world (mem_with_faults [0%Z; 5%Z])))) !! 1 = Some failed_chunk)
    by (vm_compute; reflexivity).
  split; [exact H|].
  destruct (commitUpdates_intermediate_failure vineyard (numbered_puts 300) 7
              (mem_world (mem_with_faults [0%Z; 5%Z])) 1 failed_chunk H eq_refl eq_refl)
    as (Hlen & Hposts & _ & _).
  split; [exact Hlen|]. split; [exact Hposts|].
  vm_compute. auto 6.
Defined.

(** ** The daemon watch *)


Lemma unsigned_add_wraps : unsigned_add (unsigned_modulus - 1) 1 = 0%Z.
Proof. reflexivity. Qed.


Section Daemon.

Context {Store : Type}.


End Daemon.

(** C7 fails on the code when [Stop] finds the service backing off.  The
    watcher could not be created, so a backoff timer is armed; [Stop]
    leaves it armed; it fires, the service subscribes again, and the next
    batch is posted to the callback.  On the sibling path, when [Stop]
    finds the service watching, the watch ends cancelled and the lambda
    given to [Wait] returns without arming anything. *)
Theorem Stop_leaves_backoff_timer :
  let stopped := Stop false backing_off_service in
  let fired := daemon_step (InTimer false false) (stopped, mem_world mem_empty) in
  let delivered := daemon_step (InBatch late_batch) fired in
  let ended :=
    daemon_step InWatchEnds (Stop false watching_service, mem_world mem_empty) in
  timer_pending backing_off_service = true /\
  backoff_timer_ stopped = backoff_timer_ backing_off_service /\
  timer_pending stopped = true /\
  subscribed stopped = false /\
  subscribed (fst fired) = true /\
  (watch_from_index <$> watcher_ (fst fired)) = Some 6%Z /\
  meta_context (snd delivered) = [PostOps 9 StatusOK [op_t_Put "/b" "2" 6%Z] 6%Z] /\
  subscribed (fst ended) = false /\ timer_pending (fst ended) = false.
Proof. vm_compute. auto 10. Qed.


(** Where [rev_] has not caught up, the resumed watch starts at a
    revision already delivered: the batch of revision 6 is posted while
    [rev_] is still 5, the watch ends, the timer fires, the new watch
    starts from 6 and the store delivers revision 6 again. *)
Lemma stale_revision_replays :
  let st :=
    daemon_run [InBatch late_batch; InWatchEnds; InTimer false false; InBatch late_batch]
      (set_rev_ watching_service 5%Z, mem_world mem_empty) in
  (watch_from_index <$> watcher_ (fst st)) = Some 6%Z /\
  delivered_from 6%Z late_batch /\
  delivered_revisions (snd st) = [6%Z; 6%Z].
Proof.
  split; [reflexivity|]. split; [|reflexivity].
  repeat constructor. vm_compute. discriminate.
Qed.


(** * Part III: further properties

    Properties of the same code beyond the statements of the design
    document: the backtrace writer, the failure paths of the lock handle,
    the shape of the transactions, what the watch and the snapshot read
    back, and invariants of the daemon watch. *)

(** ** The backtrace writer *)















Section LockFailures.

Context {Store : Type} {client : EtcdClient Store}.

(** X3: when the unlock at the backing store fails, the first [Release]
    of a handle returns the store's error and leaves the out-parameter
    alone, yet the handle is marked released all the same: the next
    [Release] answers [Invalid("double unlock")] and makes no call, so the
    failed unlock is never tried again. *)
Theorem Release_failure_is_final (l : EtcdLock) (r r' : unsigned) (w w' : World Store) :
  released_ l = false ->
  is_ok (fst (etcd_unlock (captured_lock_key (callback_ l)) (store w))) = false ->
  let unlock_resp := fst (etcd_unlock (captured_lock_key (callback_ l)) (store w)) in
  let first := Release l r w in
  let again := Release (snd (fst first)) r' w' in
  fst (fst first) =
    (StatusEtcdError (error_code unlock_resp) (error_message unlock_resp), r) /\
  released_ (snd (fst first)) = true /\
  fst (fst again) = (StatusInvalid "double unlock", r') /\
  new_calls w' (snd again) = [] /\
  store (snd again) = store w'.
Proof.
  intros Hl Hfail. cbv zeta.
  rewrite (Release_unreleased l r w Hl). cbn [fst snd].
  rewrite Hfail.
  rewrite (Release_released (set_released_ l true) r' w' eq_refl). cbn [fst snd calls store].
  unfold Status_EtcdError. unfold is_ok in Hfail. rewrite Hfail.
  repeat split. unfold new_calls. cbn [calls]. apply drop_all.
Qed.

Lemma EtcdLock_destroy_closed (l : EtcdLock) (w : World Store) :
  EtcdLock_destroy l w =
  if released_ l then (l, w)
  else
    (set_released_ l true,
     mk_world (snd (etcd_unlock (captured_lock_key (callback_ l)) (store w)))
       (calls w ++ [unlock_call l (store w)])
       (meta_context w)
       (diagnostics w ++ [failed_to_unlock_line (traceback_ l); execute_unlock_line])).
Proof.
  unfold EtcdLock_destroy. destruct (released_ l) eqn:Hl; [reflexivity|].
  cbn [negb]. unfold M_bind at 1. unfold LOG at 1. unfold M_bind at 1.
  rewrite (Release_unreleased l 0%Z _ Hl). cbn.
  rewrite <- app_assoc. reflexivity.
Qed.

Lemma EtcdLock_destroy_released (l : EtcdLock) (w : World Store) :
  released_ l = true -> EtcdLock_destroy l w = (l, w).
Proof. intros Hl. rewrite EtcdLock_destroy_closed, Hl. reflexivity. Qed.

(** X4: the destructor does nothing at all on a handle that went through
    [Release], whatever that call found, nor on one that was already
    destroyed; and the lines it logs at [ERROR] are the single line
    ["failed to unlock: " + traceback] when the handle was never released,
    none otherwise. *)
Theorem EtcdLock_destroy_behaviour (l : EtcdLock) (r : unsigned) (w w' : World Store) :
  let released := snd (fst (Release l r w)) in
  let destroyed := fst (EtcdLock_destroy l w) in
  EtcdLock_destroy released w' = (released, w') /\
  EtcdLock_destroy destroyed w' = (destroyed, w') /\
  new_errors w (snd (EtcdLock_destroy l w)) =
    if released_ l then [] else [failed_to_unlock_line (traceback_ l)].
Proof.
  cbv zeta. split; [|split].
  - apply EtcdLock_destroy_released. apply Release_effect.
  - apply EtcdLock_destroy_released. apply EtcdLock_destroy_effect.
  - unfold new_errors. rewrite EtcdLock_destroy_closed.
    destruct (released_ l); cbn [snd diagnostics].
    + rewrite drop_all. reflexivity.
    + rewrite drop_app_length. reflexivity.
Qed.

Lemma lock_uses_double_unlock_log (again : list unsigned) (l : EtcdLock) (w : World Store) :
  released_ l = true ->
  diagnostics (snd (lock_uses (map UseRelease again) l w)) =
  (diagnostics w ++
   replicate (length again) (double_unlock_line (traceback_ l)))%list.
Proof.
  intros Hl. revert w. induction again as [|a again IH]; intros w.
  - cbn. rewrite app_nil_r. reflexivity.
  - cbn [map lock_uses lock_use]. unfold M_bind.
    rewrite (Release_released l a w Hl). cbn [fst snd M_ret].
    rewrite IH. cbn [diagnostics length replicate]. rewrite <- app_assoc. reflexivity.
Qed.

(** X5: on the handle [requestLock] makes, the first [Release] logs
    nothing at [ERROR], and each of the calls of [Release] that follow
    logs one line ["double unlock, traceback = " + traceback] at [ERROR],
    the traceback being the one [requestLock] took. *)
Theorem double_unlock_is_logged (this : EtcdMetaService) (traceback lock_name : string)
    (callback : callback_t) (w0 : World Store) (r : unsigned) (again : list unsigned)
    (w : World Store) :
  let lock_resp := fst (etcd_lock (prefix_ this ++ lock_name) (store w0)) in
  let l := requested_handle traceback lock_resp in
  let first := Release l r w in
  let later := lock_uses (map UseRelease again) (snd (fst first)) (snd first) in
  new_posts w0 (snd (requestLock this traceback lock_name callback w0)) =
    [PostLocked callback (status_of lock_resp) l] /\
  new_errors w (snd first) = [] /\
  new_errors (snd first) (snd later) =
    replicate (length again) (double_unlock_line traceback).
Proof.
  cbv zeta. split; [apply requestLock_posts|].
  set (l := requested_handle traceback
              (fst (etcd_lock (prefix_ this ++ lock_name) (store w0)))).
  rewrite (Release_unreleased l r w eq_refl). cbn [fst snd]. unfold new_errors.
  rewrite lock_uses_double_unlock_log by reflexivity.
  cbn [diagnostics]. rewrite !drop_app_length. split; [reflexivity|].
  change (traceback_ (set_released_ l true)) with traceback.
  induction (length again) as [|n IH]; [reflexivity|].
  cbn [replicate List.filter]. change (is_error (double_unlock_line traceback)) with true.
  cbn iota. rewrite IH. reflexivity.
Qed.

(** X6: when the lock request itself fails, [requestLock] still hands a
    handle to the callback, beside the error status: the handle is not
    released, holds the revision of the failed answer, and destroying it
    sends an unlock of the key of that answer to the backing store. *)
Theorem requestLock_failure_hands_live_handle (this : EtcdMetaService)
    (traceback lock_name : string) (callback : callback_t) (w0 w : World Store) :
  is_ok (fst (etcd_lock (prefix_ this ++ lock_name) (store w0))) = false ->
  let lock_resp := fst (etcd_lock (prefix_ this ++ lock_name) (store w0)) in
  exists l,
    new_posts w0 (snd (requestLock this traceback lock_name callback w0)) =
      [PostLocked callback
         (StatusEtcdError (error_code lock_resp) (error_message lock_resp)) l] /\
    released_ l = false /\
    lock_rev l = index lock_resp /\
    new_calls w (snd (EtcdLock_destroy l w)) =
      [mk_call (ReqUnlock (lock_key lock_resp)) Awaited
         (fst (etcd_unlock (lock_key lock_resp) (store w)))].
Proof.
  intros Hfail. cbv zeta.
  exists (requested_handle traceback (fst (etcd_lock (prefix_ this ++ lock_name) (store w0)))).
  split.
  - destruct (requestLock_posts this traceback lock_name callback w0) as [_ Hp].
    cbv zeta in Hp. rewrite Hp. unfold status_of, Status_EtcdError.
    unfold is_ok in Hfail. rewrite Hfail. reflexivity.
  - split; [reflexivity|]. split; [reflexivity|].
    destruct (EtcdLock_destroy_effect
                (requested_handle traceback
                   (fst (etcd_lock (prefix_ this ++ lock_name) (store w0)))) w)
      as (_ & _ & Hc & _).
    apply new_calls_app. rewrite Hc. reflexivity.
Qed.

End LockFailures.

Lemma Release_failure_is_final_witness :
  let first := Release sample_lock 0%Z faulty_world in
  let again := Release (snd (fst first)) 9%Z (snd first) in
  is_ok (fst (etcd_unlock (captured_lock_key (callback_ sample_lock)) (store faulty_world))) =
    false /\
  fst (fst first) = (StatusEtcdError 5%Z "injected fault", 0%Z) /\
  fst (fst again) = (StatusInvalid "double unlock", 9%Z) /\
  new_calls (snd first) (snd again) = [].
Proof.
  cbv zeta.
  assert (Hfail : is_ok (fst (etcd_unlock (captured_lock_key (callback_ sample_lock)) (store faulty_world))) =
    false)
    by (vm_compute; reflexivity).
  split; [exact Hfail|].
  destruct (Release_failure_is_final sample_lock 0%Z 9%Z faulty_world
              (snd (Release sample_lock 0%Z faulty_world)) eq_refl Hfail)
    as (H1 & _ & H3 & H4 & _).
  split; [exact H1|]. split; [exact H3|exact H4].
Defined.

Lemma requestLock_failure_hands_live_handle_witness :
  is_ok (fst (etcd_lock (prefix_ vineyard ++ "/lock") (store faulty_world))) = false /\
  exists l,
    new_posts faulty_world (snd (requestLock vineyard "main+0x1A" "/lock" 7 faulty_world)) =
      [PostLocked 7 (StatusEtcdError 5%Z "injected fault") l] /\
    released_ l = false /\
    new_calls (mem_world mem_empty) (snd (EtcdLock_destroy l (mem_world mem_empty))) =
      [mk_call (ReqUnlock "") Awaited (mem_response 0%Z "" 0%Z)].
Proof.
  assert (Hfail : is_ok (fst (etcd_lock (prefix_ vineyard ++ "/lock") (store faulty_world))) = false)
    by (vm_compute; reflexivity).
  split; [exact Hfail|].
  destruct (requestLock_failure_hands_live_handle vineyard "main+0x1A" "/lock" 7 faulty_world
              (mem_world mem_empty) Hfail) as (l & Hp & Hr & _ & Hc).
  exists l. split; [exact Hp|]. split; [exact Hr|exact Hc].
Defined.

Section CommitShape.

Context {Store : Type} {client : EtcdClient Store}.

(** X7: every call of [commitUpdates] posts the callback exactly once,
    with the status and the revision of the answer to the last transaction
    it issued, whether that one was awaited or not, failed or not. *)
Theorem commitUpdates_posts_once (this : EtcdMetaService) (changes : list op_t)
    (callback : callback_t) (w : World Store) :
  let w' := snd (commitUpdates this changes callback w) in
  exists c,
    last (new_calls w w') = Some c /\
    new_posts w w' =
      [PostUpdated callback (status_of (call_response c)) (index (call_response c))].
Proof.
  cbv zeta.
  destruct (commitUpdates_outcome this changes callback w)
    as (_ & _ & leading & c & Hmade & _ & _ & Hposts & _).
  cbv zeta in *. exists c. rewrite Hmade. split; [apply last_snoc|exact Hposts].
Qed.

Lemma commitUpdates_one_chunk (this : EtcdMetaService) (changes : list op_t)
    (callback : callback_t) (w : World Store) :
  length changes <= 127 ->
  let tx := map (txn_op_of (prefix_ this)) changes in
  let resp := fst (etcd_txn tx (store w)) in
  let w' := snd (commitUpdates this changes callback w) in
  new_calls w w' = [mk_call (ReqTxn tx) Continued resp] /\
  new_posts w w' = [PostUpdated callback (status_of resp) (index resp)] /\
  store w' = snd (etcd_txn tx (store w)).
Proof.
  intros Hlen. cbv zeta. rewrite commitUpdates_submit. cbv zeta.
  rewrite Nat.div_small by lia. cbn [seq map submit_awaited].
  assert (Hchunk : chunk (map (txn_op_of (prefix_ this)) changes) 0 =
                   map (txn_op_of (prefix_ this)) changes).
  { unfold chunk. rewrite Nat.mul_0_r, drop_0. apply take_ge. rewrite length_map. exact Hlen. }
  rewrite Hchunk. unfold submit_continued, M_bind, call, post, new_calls, new_posts.
  destruct (etcd_txn (map (txn_op_of (prefix_ this)) changes) (store w)) as [resp s'].
  cbn [fst snd calls meta_context store]. rewrite !drop_app_length. auto.
Qed.

(** X8: with at most 127 changes, or none at all, [commitUpdates] awaits
    nothing: it submits one transaction holding all the changes, the keys
    under the namespace prefix, with a continuation that posts the
    callback with the status and revision of the answer. *)
Theorem commitUpdates_small_batch (this : EtcdMetaService) (changes : list op_t)
    (callback : callback_t) (w : World Store) :
  length changes <= 127 ->
  let tx := map (txn_op_of (prefix_ this)) changes in
  let resp := fst (etcd_txn tx (store w)) in
  let w' := snd (commitUpdates this changes callback w) in
  new_calls w w' = [mk_call (ReqTxn tx) Continued resp] /\
  new_posts w w' = [PostUpdated callback (status_of resp) (index resp)] /\
  store w' = snd (etcd_txn tx (store w)).
Proof. apply commitUpdates_one_chunk. Qed.

Lemma txn_key_prefixed (prefix : string) (o : op_t) :
  starts_with (txn_key (txn_op_of prefix o)) prefix = true.
Proof.
  apply starts_with_true. exists (key (kv o)).
  unfold txn_op_of. destruct (op o); reflexivity.
Qed.

(** X9: whatever the backing store answers, [commitUpdates] issues at
    least one and at most [max 1 (ceil (N / 127))] transactions, each of
    at most 127 operations; together they are a prefix of the changes in
    input order, cut at a multiple of 127, and every key sent begins with
    the namespace prefix. *)
Theorem commitUpdates_issues_a_prefix (this : EtcdMetaService) (changes : list op_t)
    (callback : callback_t) (w : World Store) :
  let made := new_calls w (snd (commitUpdates this changes callback w)) in
  1 <= length made <= Nat.max 1 (div_ceil (length changes) 127) /\
  Forall (fun c => is_transaction c = true /\ length (transaction_of c) <= 127) made /\
  concat (map transaction_of made) =
    take (127 * length made) (map (txn_op_of (prefix_ this)) changes) /\
  Forall
    (fun c =>
       Forall (fun o => starts_with (txn_key o) (prefix_ this) = true) (transaction_of c))
    made.
Proof.
  cbv zeta.
  destruct (commitUpdates_outcome this changes callback w)
    as (_ & Hreq & leading & c & Hmade & _ & _ & _ & Hlast).
  cbv zeta in *.
  set (made := new_calls w (snd (commitUpdates this changes callback w))) in *.
  destruct (requests_transactions _ _ Hreq) as [Htx Hist].
  assert (Hcat : concat (map transaction_of made) =
                 take (127 * length made) (map (txn_op_of (prefix_ this)) changes)).
  { rewrite Htx. apply concat_chunks. }
  split; [|split; [|split; [exact Hcat|]]].
  - rewrite chunk_count_iterations, Hmade, length_app. cbn [length].
    destruct Hlast as [[_ Hk]|(_ & _ & Hk)]; lia.
  - apply Forall_forall. intros x Hx. split.
    + revert x Hx. apply Forall_forall. exact Hist.
    + assert (Hin : transaction_of x ∈ map transaction_of made)
        by (apply (list_elem_of_fmap_2 transaction_of); exact Hx).
      rewrite Htx in Hin. apply list_elem_of_fmap in Hin as (i & -> & _).
      apply length_chunk_le.
  - apply Forall_forall. intros x Hx. apply Forall_forall. intros o Ho.
    assert (Hin : o ∈ concat (map transaction_of made)).
    { apply list_elem_of_In, in_concat. exists (transaction_of x).
      split; [|apply list_elem_of_In; exact Ho].
      apply list_elem_of_In, (list_elem_of_fmap_2 transaction_of). exact Hx. }
    rewrite Hcat in Hin. apply elem_of_take in Hin as (i & Hi & _).
    apply list_lookup_fmap_Some in Hi as (o' & -> & _).
    apply txn_key_prefixed.
Qed.

End CommitShape.

Lemma commitUpdates_small_batch_witness :
  let w := mem_world mem_empty in
  let w' := snd (commitUpdates vineyard (numbered_puts 3) 7 w) in
  length (numbered_puts 3) <= 127 /\
  map call_request (new_calls w w') =
    [ReqTxn [TxnPut "vineyard/k1" "v"; TxnPut "vineyard/k2" "v"; TxnPut "vineyard/k3" "v"]] /\
  new_posts w w' = [PostUpdated 7 StatusOK 1%Z].
Proof.
  cbv zeta.
  assert (Hlen : length (numbered_puts 3) <= 127) by (vm_compute; lia).
  split; [exact Hlen|].
  destruct (commitUpdates_small_batch vineyard (numbered_puts 3) 7 (mem_world mem_empty) Hlen)
    as (Hc & Hp & _).
  rewrite Hc, Hp. split; reflexivity.
Defined.

(** ** More on keys and the watch handler *)

Lemma append_nil_r (s : string) : s ++ "" = s.
Proof.
  induction s as [|c s IH]; [reflexivity|]. rewrite append_String, IH. reflexivity.
Qed.

Lemma strip_prefix_app_cancel (p m k : string) :
  strip_prefix (p ++ m) (p ++ k) = strip_prefix m k.
Proof.
  induction p as [|c p IH]; [reflexivity|].
  rewrite !append_String. cbn [strip_prefix]. rewrite Ascii.eqb_refl. exact IH.
Qed.

Lemma starts_with_app_cancel (p m k : string) :
  starts_with (p ++ k) (p ++ m) = starts_with k m.
Proof. rewrite !starts_with_strip, strip_prefix_app_cancel. reflexivity. Qed.

Lemma strip_prefix_longer (p q s : string) :
  strip_prefix p s = None -> strip_prefix (p ++ q) s = None.
Proof.
  intros H. destruct (strip_prefix (p ++ q) s) as [r|] eqn:E; [|reflexivity].
  apply strip_prefix_Some in E. rewrite append_assoc in E.
  apply strip_prefix_Some in E. congruence.
Qed.

Lemma string_empty_app (p m : string) : m <> "" -> string_empty (p ++ m) = false.
Proof.
  intros Hm. destruct p as [|c p]; [|reflexivity].
  destruct m; [congruence|reflexivity].
Qed.

Lemma guarded_event_record_rev (prefix filter : string) (e : Event) (o : op_t) :
  guarded_event_record prefix filter e = Some o ->
  rev (kv o) = unsigned_wrap (mod_revision (event_kv e)).
Proof.
  intros H. apply guarded_event_record_Some in H as (_ & o' & Ho' & ->).
  cbn [narrow_rev kv rev]. rewrite (relative_record_rev _ _ _ Ho'). reflexivity.
Qed.

Lemma fits_unsigned_wrap (z : Z) : fits_unsigned z -> unsigned_wrap z = z.
Proof. intros H. apply Z.mod_small. exact H. Qed.

(** X10: the watch handler neither reorders nor invents records: the
    revisions of the records it emits are a subsequence of the
    modification revisions of the events narrowed to 32 bits, in the same
    order, and of the modification revisions themselves when these fit 32
    bits; and there are no more records than events. *)
Theorem watch_ops_revisions_in_order (h : EtcdWatchHandler) (resp : Response) :
  sublist (map (fun o => rev (kv o)) (watch_ops h resp))
    (map (fun e => unsigned_wrap (mod_revision (event_kv e))) (events resp)) /\
  (Forall (fun e => fits_unsigned (mod_revision (event_kv e))) (events resp) ->
   sublist (map (fun o => rev (kv o)) (watch_ops h resp))
     (map (fun e => mod_revision (event_kv e)) (events resp))) /\
  length (watch_ops h resp) <= length (events resp).
Proof.
  assert (Hsub : sublist (map (fun o => rev (kv o)) (watch_ops h resp))
                   (map (fun e => unsigned_wrap (mod_revision (event_kv e))) (events resp)) /\
                 length (watch_ops h resp) <= length (events resp)).
  { rewrite watch_ops_guarded. unfold guarded_watch_ops.
    induction (events resp) as [|e es [IH1 IH2]]; [split; [constructor|reflexivity]|].
    cbn [omap list_omap map].
    destruct (guarded_event_record _ _ e) as [o|] eqn:E.
    - cbn [map length]. rewrite (guarded_event_record_rev _ _ _ _ E).
      split; [constructor; exact IH1|]. cbn in IH2 |- *. lia.
    - split; [constructor; exact IH1|]. cbn in IH2 |- *. lia. }
  destruct Hsub as [Hsub Hlen]. split; [exact Hsub|]. split; [|exact Hlen].
  intros Hfit.
  replace (map (fun e => mod_revision (event_kv e)) (events resp))
    with (map (fun e => unsigned_wrap (mod_revision (event_kv e))) (events resp));
    [exact Hsub|].
  clear Hsub Hlen. induction Hfit as [|e es He _ IH]; [reflexivity|].
  cbn [map]. rewrite (fits_unsigned_wrap _ He), IH. reflexivity.
Qed.

(** X21: the watch handler keeps nothing from one event to the next: the
    records of a batch whose events are those of two batches, one after
    the other, are the records of the first followed by those of the
    second. *)
Theorem watch_ops_batches (h : EtcdWatchHandler) (resp first second : Response) :
  events resp = (events first ++ events second)%list ->
  watch_ops h resp = (watch_ops h first ++ watch_ops h second)%list.
Proof.
  intros Hev. rewrite !watch_ops_guarded, Hev. unfold guarded_watch_ops.
  apply omap_app.
Qed.

Lemma watch_ops_batches_witness :
  events sample_batch = (events (sample_response_of (take 1 (events sample_batch))) ++
                         events (sample_response_of (drop 1 (events sample_batch))))%list /\
  watch_ops (service_handler vineyard 9) sample_batch =
    ([op_t_Put "/a" "1" 4%Z] ++ [op_t_Del "/b" 4%Z])%list.
Proof.
  split; [reflexivity|].
  apply (watch_ops_batches (service_handler vineyard 9) sample_batch
           (sample_response_of (take 1 (events sample_batch)))
           (sample_response_of (drop 1 (events sample_batch)))).
  reflexivity.
Defined.

Lemma guarded_reported_event (p m : string) (o : op_t) (r : Z) :
  starts_with (key (kv o)) "/" = true ->
  starts_with (key (kv o)) m = false ->
  guarded_event_record p (p ++ m) (reported_event (txn_op_of p o) r) =
    Some (observed o (unsigned_wrap r)).
Proof.
  intros Hroot Hsync. unfold guarded_event_record, relative_record.
  assert (Hkey : kv_key (event_kv (reported_event (txn_op_of p o) r)) = p ++ key (kv o))
    by (unfold txn_op_of; destruct (op o); reflexivity).
  rewrite Hkey, <- starts_with_begins_with, starts_with_app_cancel, Hsync, andb_false_r.
  rewrite strip_prefix_app_cancel.
  rewrite starts_with_strip in Hroot.
  destruct (strip_prefix "/" (key (kv o))) as [rest|] eqn:E; [|discriminate].
  apply strip_prefix_Some in E.
  unfold observed, txn_op_of. destruct (op o); cbn; rewrite <- E; reflexivity.
Qed.

Lemma relative_record_unrooted (p k : string) (e : Event) :
  kv_key (event_kv e) = p ++ k -> starts_with k "/" = false -> relative_record p e = None.
Proof.
  intros Hkey Hk. unfold relative_record.
  rewrite Hkey, strip_prefix_app_cancel. rewrite starts_with_strip in Hk.
  destruct (strip_prefix "/" k); [discriminate|reflexivity].
Qed.

Section ReadBack.

Context {Store : Type} {client : EtcdClient Store}.

Lemma commitUpdates_call_chunk (this : EtcdMetaService) (changes : list op_t)
    (callback : callback_t) (w : World Store) (i : nat) (c : Call) :
  new_calls w (snd (commitUpdates this changes callback w)) !! i = Some c ->
  transaction_of c = map (txn_op_of (prefix_ this)) (take 127 (drop (127 * i) changes)).
Proof.
  intros Hi.
  destruct (commitUpdates_outcome this changes callback w) as (_ & Hreq & _).
  cbv zeta in Hreq. destruct (requests_transactions _ _ Hreq) as [Htx _].
  apply (f_equal (fun l => l !! i)) in Htx.
  rewrite !list_lookup_fmap, Hi in Htx. cbn [fmap option_fmap option_map] in Htx.
  rewrite lookup_seq_lt in Htx by (apply lookup_lt_Some in Hi; exact Hi).
  cbn in Htx. injection Htx as ->. rewrite fmap_chunk. reflexivity.
Qed.

(** X11: the watch handler reads back what [commitUpdates] writes: when
    the keys of the changes begin with the separator and not with the
    sync-lock name, the events the store reports for the operations of a
    transaction [commitUpdates] has sent, the [i]-th, applied at revision
    [r], give back the changes of that chunk, key for key and value for
    value, at [r] narrowed to 32 bits. *)
Theorem watch_reads_back_commit (this : EtcdMetaService) (callback updated : callback_t)
    (changes : list op_t) (w : World Store) (i : nat) (c : Call) (r : Z) (resp : Response) :
  Forall
    (fun o =>
       starts_with (key (kv o)) "/" = true /\
       starts_with (key (kv o)) (meta_sync_lock_ this) = false)
    changes ->
  new_calls w (snd (commitUpdates this changes updated w)) !! i = Some c ->
  events resp = map (fun o => reported_event o r) (transaction_of c) ->
  watch_ops (service_handler this callback) resp =
    map (fun o => observed o (unsigned_wrap r)) (take 127 (drop (127 * i) changes)).
Proof.
  intros Hall Hi Hev.
  rewrite (commitUpdates_call_chunk this changes updated w i c Hi) in Hev.
  assert (Hchunk : Forall
            (fun o =>
               starts_with (key (kv o)) "/" = true /\
               starts_with (key (kv o)) (meta_sync_lock_ this) = false)
            (take 127 (drop (127 * i) changes)))
    by (apply Forall_take, Forall_drop; exact Hall).
  rewrite watch_ops_guarded, Hev. unfold guarded_watch_ops.
  cbn [service_handler handler_prefix_ filter_prefix_]. clear Hev Hi Hall.
  induction Hchunk as [|o os [Hroot Hsync] _ IH]; [reflexivity|].
  cbn [map omap list_omap].
  rewrite (guarded_reported_event _ _ _ _ Hroot Hsync). f_equal. exact IH.
Qed.

(** X12: a change whose key does not begin with the separator is
    written and never read back: [commitUpdates] sends it under
    [prefix_ + key], and both the watch handler and the loop of
    [requestAll] skip that key. *)
Theorem unrooted_key_is_never_read_back (this : EtcdMetaService) (callback : callback_t)
    (o : op_t) (r : unsigned) (resp snapshot : Response) (ops : list op_t) (i : nat)
    (w : World Store) :
  starts_with (key (kv o)) "/" = false ->
  events resp = [reported_event (txn_op_of (prefix_ this) o) r] ->
  keys snapshot !! i = Some (prefix_ this ++ key (kv o)) ->
  map call_request (new_calls w (snd (commitUpdates this [o] callback w))) =
    [ReqTxn [txn_op_of (prefix_ this) o]] /\
  txn_key (txn_op_of (prefix_ this) o) = prefix_ this ++ key (kv o) /\
  watch_ops (service_handler this callback) resp = [] /\
  requestAll_step this snapshot ops i = ops.
Proof.
  intros Hk Hev Hsnap. split; [|split; [|split]].
  - destruct (commitUpdates_one_chunk this [o] callback w) as (Hc & _); [cbn; lia|].
    cbv zeta in Hc. rewrite Hc. reflexivity.
  - unfold txn_op_of. destruct (op o); reflexivity.
  - rewrite watch_ops_guarded, Hev. unfold guarded_watch_ops. cbn [omap list_omap].
    unfold guarded_event_record. destruct (_ && _); [reflexivity|].
    rewrite (relative_record_unrooted (prefix_ this) (key (kv o))); [reflexivity| |exact Hk].
    unfold txn_op_of. destruct (op o); reflexivity.
  - unfold requestAll_step, resp_key. rewrite Hsnap.
    change (default "" (Some (prefix_ this ++ key (kv o)))) with (prefix_ this ++ key (kv o)).
    rewrite starts_with_app_cancel, Hk. cbn [negb].
    destruct (string_empty _); reflexivity.
Qed.

Lemma service_handler_silent (this : EtcdMetaService) (callback : callback_t)
    (resp : Response) :
  prefix_ this <> "" -> meta_sync_lock_ this = "" ->
  watch_ops (service_handler this callback) resp = [].
Proof.
  intros Hp Hm. rewrite watch_ops_guarded. unfold guarded_watch_ops.
  cbn [service_handler handler_prefix_ filter_prefix_]. rewrite Hm, append_nil_r.
  induction (events resp) as [|e es IH]; [reflexivity|].
  cbn [omap list_omap]. rewrite IH.
  unfold guarded_event_record. unfold begins_with.
  replace (string_empty (prefix_ this)) with false
    by (destruct (prefix_ this); [congruence|reflexivity]).
  cbn [negb andb].
  destruct (strip_prefix (prefix_ this) (kv_key (event_kv e))) as [rest|] eqn:E.
  - rewrite bool_decide_eq_true_2 by eauto. reflexivity.
  - rewrite bool_decide_eq_false_2 by (intros [x Hx]; discriminate).
    unfold relative_record. rewrite (strip_prefix_longer _ "/" _ E). reflexivity.
Qed.

(** X13: when the sync-lock name is empty and the namespace prefix is
    not, [requestUpdates] hands the callback an empty list whatever the
    watch answers: the filter prefix is then the namespace prefix
    itself. *)
Theorem requestUpdates_without_sync_lock (this : EtcdMetaService) (prefix : string)
    (since_rev : unsigned) (callback : callback_t) (w : World Store) :
  prefix_ this <> "" -> meta_sync_lock_ this = "" ->
  let resp :=
    fst (etcd_watch (prefix_ this ++ prefix) (unsigned_add since_rev 1) true (store w)) in
  new_posts w (snd (requestUpdates this prefix since_rev callback w)) =
    [PostOps callback (status_of resp) [] (index resp)].
Proof.
  intros Hp Hm. cbv zeta.
  unfold requestUpdates, M_bind, call, EtcdWatchHandler_call, post, new_posts.
  destruct (etcd_watch (prefix_ this ++ prefix) (unsigned_add since_rev 1) true (store w))
    as [resp s'].
  cbn [fst snd meta_context]. rewrite drop_app_length.
  fold (service_handler this callback).
  rewrite (service_handler_silent this callback resp Hp Hm). reflexivity.
Qed.

Lemma guarded_record_outside_sync_lock (p m : string) (e : Event) (o : op_t) :
  m <> "" ->
  guarded_event_record p (p ++ m) e = Some o ->
  starts_with (key (kv o)) "/" = true /\ starts_with (key (kv o)) m = false.
Proof.
  intros Hm. unfold guarded_event_record.
  rewrite (string_empty_app p m Hm). cbn [negb andb].
  rewrite <- starts_with_begins_with.
  destruct (starts_with (kv_key (event_kv e)) (p ++ m)) eqn:Hs; [discriminate|].
  intros Hrec.
  destruct (relative_record p e) as [o'|] eqn:Ho'; [|discriminate].
  injection Hrec as <-. change (key (kv (narrow_rev o'))) with (key (kv o')).
  split; [exact (relative_record_rooted _ _ _ Ho')|].
  unfold relative_record in Ho'.
  destruct (strip_prefix (p ++ "/") (kv_key (event_kv e))) as [rest|] eqn:E; [|discriminate].
  apply strip_prefix_Some in E. rewrite append_assoc in E.
  rewrite E, starts_with_app_cancel in Hs.
  destruct (type e); try discriminate; injection Ho' as <-; exact Hs.
Qed.

(** X14: when the sync-lock name is not empty, [requestUpdates] makes
    one watch request, recursive, on [prefix_ + prefix] from
    [since_rev + 1], and posts the callback once with records whose keys
    all begin with the separator and none with the sync-lock name. *)
Theorem requestUpdates_delivers_namespace_records (this : EtcdMetaService) (prefix : string)
    (since_rev : unsigned) (callback : callback_t) (w : World Store) :
  meta_sync_lock_ this <> "" ->
  let resp :=
    fst (etcd_watch (prefix_ this ++ prefix) (unsigned_add since_rev 1) true (store w)) in
  let w' := snd (requestUpdates this prefix since_rev callback w) in
  new_calls w w' =
    [mk_call (ReqWatch (prefix_ this ++ prefix) (unsigned_add since_rev 1) true)
       Continued resp] /\
  exists ops,
    new_posts w w' = [PostOps callback (status_of resp) ops (index resp)] /\
    Forall
      (fun o =>
         starts_with (key (kv o)) "/" = true /\
         starts_with (key (kv o)) (meta_sync_lock_ this) = false)
      ops.
Proof.
  intros Hm. cbv zeta.
  unfold requestUpdates, M_bind, call, EtcdWatchHandler_call, post, new_posts, new_calls.
  destruct (etcd_watch (prefix_ this ++ prefix) (unsigned_add since_rev 1) true (store w))
    as [resp s'].
  cbn [fst snd meta_context calls]. rewrite !drop_app_length.
  split; [reflexivity|]. eexists. split; [reflexivity|].
  rewrite watch_ops_guarded. cbn [handler_prefix_ filter_prefix_].
  apply Forall_forall. intros o Ho.
  apply list_elem_of_omap in Ho as (e & _ & He).
  exact (guarded_record_outside_sync_lock _ _ _ _ Hm He).
Qed.

End ReadBack.

Lemma watch_reads_back_commit_witness :
  let w := mem_world mem_empty in
  let made := new_calls w (snd (commitUpdates vineyard sample_changes 7 w)) in
  map transaction_of made = [[TxnPut "vineyard/a" "1"; TxnDelete "vineyard/b"]] /\
  events sample_batch =
    map (fun o => reported_event o 4%Z) [TxnPut "vineyard/a" "1"; TxnDelete "vineyard/b"] /\
  watch_ops (service_handler vineyard 9) sample_batch =
    [op_t_Put "/a" "1" 4%Z; op_t_Del "/b" 4%Z].
Proof.
  cbv zeta. split; [vm_compute; reflexivity|]. split; [reflexivity|].
  refine (eq_trans
            (watch_reads_back_commit vineyard 9 7 sample_changes (mem_world mem_empty) 0
               (mk_call (ReqTxn [TxnPut "vineyard/a" "1"; TxnDelete "vineyard/b"]) Continued
                  (mem_response 0%Z "" 1%Z))
               4%Z sample_batch _ _ _) _).
  - repeat constructor.
  - vm_compute. reflexivity.
  - reflexivity.
  - reflexivity.
Defined.

Lemma unrooted_key_is_never_read_back_witness :
  let w := mem_world mem_empty in
  map call_request (new_calls w (snd (commitUpdates vineyard [unrooted_change] 7 w))) =
    [ReqTxn [TxnPut "vineyarda" "1"]] /\
  watch_ops (service_handler vineyard 9) unrooted_batch = [] /\
  requestAll_step vineyard unrooted_batch [] 0 = [].
Proof.
  cbv zeta.
  destruct (unrooted_key_is_never_read_back vineyard 9 unrooted_change 4%Z unrooted_batch
              unrooted_batch [] 0 (mem_world mem_empty) eq_refl eq_refl eq_refl)
    as (H1 & _ & H3 & H4).
  split; [exact H1|]. split; [exact H3|exact H4].
Defined.

Lemma requestUpdates_without_sync_lock_witness :
  let w := mem_world snapshot_store in
  events (fst (mem_watch "vineyard" 1%Z true snapshot_store)) =
    [mk_event PUT (mk_keyvalue "vineyard/a" "1" 1%Z)] /\
  new_posts w (snd (requestUpdates unconfigured "" 0%Z 9 w)) = [PostOps 9 StatusOK [] 1%Z].
Proof.
  cbv zeta. split; [vm_compute; reflexivity|].
  assert (Hp : prefix_ unconfigured <> "") by discriminate.
  rewrite (requestUpdates_without_sync_lock unconfigured "" 0%Z 9 (mem_world snapshot_store)
             Hp eq_refl).
  vm_compute. reflexivity.
Defined.

Lemma requestUpdates_delivers_namespace_records_witness :
  let w := mem_world snapshot_store in
  meta_sync_lock_ vineyard <> "" /\
  exists ops,
    new_posts w (snd (requestUpdates vineyard "" 0%Z 9 w)) = [PostOps 9 StatusOK ops 1%Z] /\
    Forall
      (fun o =>
         starts_with (key (kv o)) "/" = true /\
         starts_with (key (kv o)) "/meta_sync_lock" = false)
      ops.
Proof.
  cbv zeta.
  assert (Hm : meta_sync_lock_ vineyard <> "") by discriminate.
  split; [exact Hm|].
  destruct (requestUpdates_delivers_namespace_records vineyard "" 0%Z 9
              (mem_world snapshot_store) Hm) as (_ & ops & Hp & Hall).
  exists ops. split; [|exact Hall]. rewrite Hp. vm_compute. reflexivity.
Defined.

Section SnapshotShape.

Context {Store : Type} {client : EtcdClient Store}.

(** X15: for every answer to the listing whose keys and values have the
    same length, [requestAll] hands the callback as many value-initialised
    records as the answer has keys, followed by the [Put] records of the
    keys under [prefix_ + "/"], in order, at the revision of the answer. *)
Theorem requestAll_records (this : EtcdMetaService) (prefix : string) (base_rev : unsigned)
    (callback : callback_t) (w : World Store) :
  let resp := fst (etcd_ls (prefix_ this ++ prefix) (store w)) in
  length (values resp) = length (keys resp) ->
  new_posts w (snd (requestAll this prefix base_rev callback w)) =
    [PostOps callback (status_of resp)
       (replicate (length (keys resp)) op_t_default ++ stated_snapshot_ops (prefix_ this) resp)
       (index resp)].
Proof.
  cbv zeta. intros Hlen.
  unfold requestAll, M_bind, call, post, new_posts.
  destruct (etcd_ls (prefix_ this ++ prefix) (store w)) as [resp s'].
  cbn [fst snd meta_context] in *. rewrite drop_app_length.
  rewrite (requestAll_ops_shape this resp Hlen). reflexivity.
Qed.

(** X16: [requestAll] loses no key of the namespace: a key
    [prefix_ + k] of the answer, with [k] beginning with the separator,
    gives the record [Put{k, value, index}] in the list built. *)
Theorem requestAll_reads_back (this : EtcdMetaService) (resp : Response) (i : nat)
    (k v : string) :
  length (values resp) = length (keys resp) ->
  keys resp !! i = Some (prefix_ this ++ k) ->
  values resp !! i = Some v ->
  starts_with k "/" = true ->
  op_t_Put k v (index resp) ∈ requestAll_ops this resp.
Proof.
  intros Hlen Hk Hv Hroot. rewrite (requestAll_ops_shape this resp Hlen).
  apply elem_of_app. right. unfold stated_snapshot_ops.
  apply list_elem_of_omap. exists (prefix_ this ++ k, v). split.
  - apply list_elem_of_lookup. exists i. apply lookup_zip_with_Some. eauto.
  - unfold stated_snapshot_record. cbn [fst snd].
    rewrite strip_prefix_app_cancel. rewrite starts_with_strip in Hroot.
    destruct (strip_prefix "/" k) as [rest|] eqn:E; [|discriminate].
    apply strip_prefix_Some in E. rewrite <- E. reflexivity.
Qed.

End SnapshotShape.

Lemma requestAll_records_witness :
  let w := mem_world snapshot_store in
  new_posts w (snd (requestAll vineyard "" 0%Z 8 w)) =
    [PostOps 8 StatusOK [op_t_default; op_t_Put "/a" "1" 1%Z] 1%Z].
Proof.
  cbv zeta.
  assert (Hlen : length (values (fst (etcd_ls (prefix_ vineyard ++ "")
                                        (store (mem_world snapshot_store))))) =
                 length (keys (fst (etcd_ls (prefix_ vineyard ++ "")
                                      (store (mem_world snapshot_store))))))
    by (vm_compute; reflexivity).
  rewrite (requestAll_records vineyard "" 0%Z 8 (mem_world snapshot_store) Hlen).
  vm_compute. reflexivity.
Defined.

Lemma requestAll_reads_back_witness :
  op_t_Put "/b/c" "2" 12%Z ∈ requestAll_ops vineyard sample_snapshot.
Proof.
  apply (requestAll_reads_back vineyard sample_snapshot 1 "/b/c" "2"); reflexivity.
Defined.

(** ** More on the daemon watch *)

Section DaemonInvariants.

Context {Store : Type}.

Lemma daemon_run_cons (i : DaemonInput) (inputs : list DaemonInput)
    (st : EtcdMetaService * World Store) :
  daemon_run (i :: inputs) st = daemon_run inputs (daemon_step i st).
Proof. reflexivity. Qed.

Lemma subscribed_Stop (c : bool) (this : EtcdMetaService) :
  subscribed this = false -> subscribed (Stop c this) = false.
Proof.
  unfold subscribed, Stop.
  destruct this as [p m r [wt|] t [ch|]]; destruct c; cbn; auto.
Qed.

Lemma timer_pending_Stop (c : bool) (this : EtcdMetaService) :
  timer_pending (Stop c this) = timer_pending this.
Proof.
  unfold timer_pending, Stop.
  destruct this as [p m r [wt|] t [ch|]]; destruct c; reflexivity.
Qed.

Lemma subscribed_retry (this : EtcdMetaService) (prefix : string) (since_rev : unsigned)
    (callback : callback_t) :
  subscribed (retryDaeminWatch this prefix since_rev callback) = subscribed this /\
  timer_pending (retryDaeminWatch this prefix since_rev callback) = true /\
  watcher_ (retryDaeminWatch this prefix since_rev callback) = watcher_ this.
Proof. auto. Qed.

Lemma subscribed_start (this : EtcdMetaService) (prefix : string) (since_rev : unsigned)
    (callback : callback_t) :
  subscribed (startDaemonWatch false this prefix since_rev callback) = true /\
  timer_pending (startDaemonWatch false this prefix since_rev callback) = timer_pending this.
Proof. auto. Qed.

Lemma timer_fired (this : EtcdMetaService) (t : steady_timer) :
  subscribed (set_backoff_timer_ this (Some (mk_timer (expires_after_seconds t) None))) =
    subscribed this /\
  timer_pending (set_backoff_timer_ this (Some (mk_timer (expires_after_seconds t) None))) =
    false /\
  watcher_ (set_backoff_timer_ this (Some (mk_timer (expires_after_seconds t) None))) =
    watcher_ this.
Proof. auto. Qed.

Lemma watch_finished (this : EtcdMetaService) (wt : Watcher) :
  subscribed (set_watcher_ this (Some (Watcher_finish wt))) = false /\
  timer_pending (set_watcher_ this (Some (Watcher_finish wt))) = timer_pending this.
Proof. unfold subscribed. cbn. rewrite andb_false_r. auto. Qed.

Lemma timer_pending_closure (this : EtcdMetaService) (t : steady_timer)
    (c : string * unsigned * callback_t) :
  backoff_timer_ this = Some t -> timer_closure t = Some c -> timer_pending this = true.
Proof. intros Ht Hc. unfold timer_pending. rewrite Ht, Hc. reflexivity. Qed.

Lemma daemon_step_exclusive (i : DaemonInput) (this : EtcdMetaService) (w : World Store) :
  subscribed this && timer_pending this = false ->
  subscribed (fst (daemon_step i (this, w))) &&
  timer_pending (fst (daemon_step i (this, w))) = false.
Proof.
  intros H. destruct i as [resp| |error ctor|cancel|r]; cbn [daemon_step].
  - destruct (watcher_ this) as [wt|]; exact H.
  - destruct (watcher_ this) as [wt|] eqn:E; [|exact H].
    destruct (wait_closure wt) as [[prefix callback]|]; [|exact H].
    cbn [fst]. destruct (watch_finished this wt) as [Hs Ht].
    unfold on_watch_finished. destruct (watch_cancelled wt).
    + rewrite Hs. reflexivity.
    + destruct (subscribed_retry (set_watcher_ this (Some (Watcher_finish wt))) prefix
                  (rev_ (set_watcher_ this (Some (Watcher_finish wt)))) callback)
        as (Hs' & _). rewrite Hs', Hs. reflexivity.
  - destruct (backoff_timer_ this) as [t|] eqn:E; [|exact H].
    destruct (timer_closure t) as [[[prefix since_rev] callback]|] eqn:Ec; [|exact H].
    cbn [fst]. rewrite (timer_pending_closure this t _ E Ec), andb_true_r in H.
    destruct (timer_fired this t) as (Hs & Ht & _).
    unfold on_backoff_timer, startDaemonWatch. destruct ctor.
    + match goal with |- context [retryDaeminWatch ?a ?b ?c ?d] =>
        destruct (subscribed_retry a b c d) as (Hs' & _) end.
      rewrite Hs', Hs, H. reflexivity.
    + match goal with |- context [startDaemonWatch] => idtac | _ => idtac end.
      fold (startDaemonWatch false
              (set_backoff_timer_ this (Some (mk_timer (expires_after_seconds t) None)))
              prefix since_rev callback).
      destruct (subscribed_start
                  (set_backoff_timer_ this (Some (mk_timer (expires_after_seconds t) None)))
                  prefix since_rev callback) as [_ Ht'].
      rewrite Ht', Ht. apply andb_false_r.
  - cbn [fst]. rewrite timer_pending_Stop.
    apply andb_false_iff in H as [H|H].
    + rewrite (subscribed_Stop cancel this H). reflexivity.
    + rewrite H. apply andb_false_r.
  - exact H.
Qed.

(** X17: from a service with no live subscription and no armed timer,
    after [startDaemonWatch] and whatever follows (batches, ends of watch,
    timer events, calls of [Stop], moves of [rev_]), the service never has
    a live subscription and an armed backoff timer at the same time. *)
Theorem daemon_watch_never_both (ctor_throws : bool) (this : EtcdMetaService)
    (prefix : string) (since_rev : unsigned) (callback : callback_t)
    (inputs : list DaemonInput) (w : World Store) :
  subscribed this = false ->
  timer_pending this = false ->
  let after :=
    fst (daemon_run inputs (startDaemonWatch ctor_throws this prefix since_rev callback, w)) in
  subscribed after && timer_pending after = false.
Proof.
  intros Hs Ht. cbv zeta.
  assert (H0 : subscribed (startDaemonWatch ctor_throws this prefix since_rev callback) &&
               timer_pending (startDaemonWatch ctor_throws this prefix since_rev callback) =
               false).
  { destruct ctor_throws.
    - destruct (subscribed_retry this prefix since_rev callback) as (Hs' & _).
      unfold startDaemonWatch. rewrite Hs', Hs. reflexivity.
    - destruct (subscribed_start this prefix since_rev callback) as (_ & Ht').
      rewrite Ht', Ht. apply andb_false_r. }
  revert H0. generalize (startDaemonWatch ctor_throws this prefix since_rev callback).
  revert w. induction inputs as [|i inputs IH]; intros w st H0; [exact H0|].
  rewrite daemon_run_cons.
  pose proof (daemon_step_exclusive i st w H0) as H1.
  destruct (daemon_step i (st, w)) as [st' w']. apply IH. exact H1.
Qed.

Lemma daemon_step_alive (i : DaemonInput) (this : EtcdMetaService) (w : World Store) :
  not_stop i ->
  watching_xor_backing_off this -> uncancelled this ->
  watching_xor_backing_off (fst (daemon_step i (this, w))) /\
  uncancelled (fst (daemon_step i (this, w))).
Proof.
  unfold watching_xor_backing_off, uncancelled.
  intros Hi H Hc. destruct i as [resp| |error ctor|cancel|r]; cbn [daemon_step].
  - assert (Hsame : fst (daemon_step (InBatch resp) (this, w)) = this).
    { cbn [daemon_step]. destruct (watcher_ this) as [wt|]; reflexivity. }
    cbn [daemon_step] in Hsame. rewrite Hsame. split; [exact H|exact Hc].
  - destruct (watcher_ this) as [wt|] eqn:E;
      [|cbn [fst]; split; [exact H|intros ? ?; apply Hc; congruence]].
    destruct (wait_closure wt) as [[prefix callback]|];
      [|cbn [fst]; split; [exact H|intros ? ?; apply Hc; congruence]].
    cbn [fst]. rewrite (Hc wt eq_refl). unfold on_watch_finished.
    destruct (watch_finished this wt) as [Hs _].
    match goal with |- context [retryDaeminWatch ?a ?b ?c ?d] =>
      destruct (subscribed_retry a b c d) as (Hs' & Ht' & Hw') end.
    rewrite Hs', Ht', Hw', Hs. split; [reflexivity|].
    cbn. intros wt' [= <-]. cbn. apply (Hc wt eq_refl).
  - destruct (backoff_timer_ this) as [t|] eqn:E; [|cbn [fst]; split; [exact H|exact Hc]].
    destruct (timer_closure t) as [[[prefix since_rev] callback]|] eqn:Ec;
      [|cbn [fst]; split; [exact H|exact Hc]].
    cbn [fst]. rewrite (timer_pending_closure this t _ E Ec) in H. cbn [negb] in H.
    destruct (timer_fired this t) as (Hs & Ht & Hw).
    unfold on_backoff_timer. destruct ctor.
    + unfold startDaemonWatch.
      match goal with |- context [retryDaeminWatch ?a ?b ?c ?d] =>
        destruct (subscribed_retry a b c d) as (Hs' & Ht' & Hw') end.
      rewrite Hs', Ht', Hw', Hs, Hw, H. split; [reflexivity|exact Hc].
    + match goal with |- context [startDaemonWatch false ?a ?b ?c ?d] =>
        destruct (subscribed_start a b c d) as (Hs' & Ht') end.
      rewrite Hs', Ht', Ht. split; [reflexivity|].
      cbn. intros wt' [= <-]. reflexivity.
  - destruct Hi.
  - cbn [fst]. split; [exact H|exact Hc].
Qed.

(** X18: as long as [Stop] is not called, the daemon watch never gives
    up: from a service with no watcher and no armed timer, after
    [startDaemonWatch] and any inputs, it has either a live subscription
    or an armed backoff timer, one and not the other. *)
Theorem daemon_watch_never_gives_up (ctor_throws : bool) (this : EtcdMetaService)
    (prefix : string) (since_rev : unsigned) (callback : callback_t)
    (inputs : list DaemonInput) (w : World Store) :
  watcher_ this = None ->
  timer_pending this = false ->
  Forall not_stop inputs ->
  let after :=
    fst (daemon_run inputs (startDaemonWatch ctor_throws this prefix since_rev callback, w)) in
  subscribed after = negb (timer_pending after).
Proof.
  intros Hw Ht Hin. cbv zeta.
  assert (H0 : watching_xor_backing_off
                 (startDaemonWatch ctor_throws this prefix since_rev callback) /\
               uncancelled (startDaemonWatch ctor_throws this prefix since_rev callback)).
  { unfold watching_xor_backing_off, uncancelled. destruct ctor_throws.
    - destruct (subscribed_retry this prefix since_rev callback) as (Hs' & Ht' & Hw').
      unfold startDaemonWatch. rewrite Hs', Ht', Hw', Hw. unfold subscribed. rewrite Hw.
      split; [reflexivity|discriminate].
    - destruct (subscribed_start this prefix since_rev callback) as (Hs' & Ht').
      rewrite Hs', Ht', Ht. split; [reflexivity|].
      cbn. intros wt' [= <-]. reflexivity. }
  revert H0. generalize (startDaemonWatch ctor_throws this prefix since_rev callback).
  revert w. induction Hin as [|i inputs Hi _ IH]; intros w st [H0 Hc]; [exact H0|].
  rewrite daemon_run_cons.
  pose proof (daemon_step_alive i st w Hi H0 Hc) as H1.
  destruct (daemon_step i (st, w)) as [st' w']. apply IH. exact H1.
Qed.




Lemma daemon_step_failing_retry (i : DaemonInput) (this : EtcdMetaService) (w : World Store)
    (t : steady_timer) :
  failing_retry i ->
  expires_after_seconds t = BACKOFF_RETRY_TIME -> is_Some (timer_closure t) ->
  backoff_timer_ this = Some t ->
  backoff_timer_ (fst (daemon_step i (this, w))) = Some t /\
  watcher_ (fst (daemon_step i (this, w))) = watcher_ this.
Proof.
  intros Hi Hsec [[[prefix since_rev] callback] Hc] Ht.
  destruct i as [resp| |error [|]|cancel|r]; try destruct Hi; cbn [daemon_step].
  - rewrite Ht, Hc. cbn [fst]. unfold on_backoff_timer, startDaemonWatch, retryDaeminWatch.
    destruct this as [p m r0 wt0 t0 ch0]. destruct t as [secs clo]. cbn in *.
    subst. auto.
  - destruct this as [p m r0 wt0 t0 ch0]. cbn in *. auto.
Qed.

(** X20: the revision a retry resumes from is the value [rev_] had when
    the watch ended: however many times the watcher fails to be created
    and however [rev_] moves in between, the timer armed holds that
    revision, 10 seconds again, and the watch that finally subscribes
    starts from it plus one. *)
Theorem retry_keeps_the_revision (this : EtcdMetaService) (prefix : string)
    (callback : callback_t) (inputs : list DaemonInput) (error : bool) (w : World Store) :
  Forall failing_retry inputs ->
  let backing_off := on_watch_finished this prefix callback false in
  let later := daemon_run inputs (backing_off, w) in
  let resumed := fst (daemon_step (InTimer error false) later) in
  backoff_timer_ (fst later) =
    Some (mk_timer BACKOFF_RETRY_TIME (Some (prefix, rev_ this, callback))) /\
  watcher_ (fst later) = watcher_ this /\
  (watch_from_index <$> watcher_ resumed) = Some (unsigned_add (rev_ this) 1).
Proof.
  intros Hin. cbv zeta.
  set (t := mk_timer BACKOFF_RETRY_TIME (Some (prefix, rev_ this, callback))).
  assert (H0 : backoff_timer_ (on_watch_finished this prefix callback false) = Some t /\
               watcher_ (on_watch_finished this prefix callback false) = watcher_ this).
  { destruct this; auto. }
  revert H0. generalize (on_watch_finished this prefix callback false).
  revert w. induction Hin as [|i inputs Hi _ IH]; intros w st [Ht Hw].
  - cbn [daemon_run fold_left fst]. split; [exact Ht|]. split; [exact Hw|].
    cbn [daemon_step]. rewrite Ht. reflexivity.
  - rewrite daemon_run_cons.
    destruct (daemon_step_failing_retry i st w t Hi eq_refl) as [Ht' Hw']; [eauto|exact Ht|].
    destruct (daemon_step i (st, w)) as [st' w']. cbn [fst] in *.
    apply IH. split; [exact Ht'|]. rewrite Hw'. exact Hw.
Qed.

End DaemonInvariants.

Lemma daemon_watch_never_both_witness :
  let after :=
    fst (daemon_run [InWatchEnds; InStop false; InTimer false false; InBatch late_batch]
           (startDaemonWatch false vineyard "" 5%Z 9, mem_world mem_empty)) in
  subscribed vineyard = false /\ timer_pending vineyard = false /\
  subscribed after && timer_pending after = false.
Proof.
  cbv zeta. split; [reflexivity|]. split; [reflexivity|].
  apply (daemon_watch_never_both false vineyard "" 5%Z 9
           [InWatchEnds; InStop false; InTimer false false; InBatch late_batch]
           (mem_world mem_empty)); reflexivity.
Defined.

Lemma daemon_watch_never_gives_up_witness :
  let inputs := [InWatchEnds; InTimer true true; InRevision 8%Z; InTimer false false] in
  let after :=
    fst (daemon_run inputs (startDaemonWatch false vineyard "" 5%Z 9, mem_world mem_empty)) in
  Forall not_stop inputs /\
  subscribed after = negb (timer_pending after).
Proof.
  cbv zeta.
  assert (H : Forall not_stop
                [InWatchEnds; InTimer true true; InRevision 8%Z; InTimer false false])
    by (repeat constructor).
  split; [exact H|].
  apply (daemon_watch_never_gives_up false vineyard "" 5%Z 9 _ (mem_world mem_empty));
    [reflexivity|reflexivity|exact H].
Defined.

Lemma retry_keeps_the_revision_witness :
  let inputs := [InTimer false true; InRevision 99%Z; InTimer true true] in
  let backing_off := on_watch_finished (set_rev_ watching_service 41%Z) "" 9 false in
  let later := daemon_run inputs (backing_off, mem_world mem_empty) in
  let resumed := fst (daemon_step (InTimer false false) later) in
  Forall failing_retry inputs /\
  backoff_timer_ (fst later) = Some (mk_timer 10%Z (Some ("", 41%Z, 9))) /\
  (watch_from_index <$> watcher_ resumed) = Some 42%Z.
Proof.
  cbv zeta.
  assert (H : Forall failing_retry [InTimer false true; InRevision 99%Z; InTimer true true])
    by (repeat constructor).
  split; [exact H|].
  destruct (retry_keeps_the_revision (set_rev_ watching_service 41%Z) "" 9 _ false
              (mem_world mem_empty) H) as (Ht & _ & Hr).
  split; [exact Ht|exact Hr].
Defined.
